(** * pyDrop: coarse-graining bins and the clustering wrappers

    A shallow embedding of [pyDrop/clustering/course_graining.py] and the
    properties of its binning strategies ([ModuloBins], [LinSpaceBins],
    [ArrangeBins]), of the per-axis collection [Bins], and of the two
    wrappers [CGCluster] and [KMCalico].

    Numbers.  Python floats are idealised as exact rationals ([Q]); Python
    ints are [Z].  Rounding error, NaN and infinities are outside the model.
    Results of type float are compared with [==] (equality of rationals). *)

From Stdlib Require Import ZArith QArith Qround Qabs Lqa Lia.
From stdpp Require Import base option list sorting gmap strings.

Local Open Scope Q_scope.

(** ** Python exceptions and results *)

Inductive exn :=
| ArithmeticError      (* division by zero and what follows from it *)
| AssertionError
| ValueError
| AttributeError
| TypeError
| IndexError
| SystemError          (* a reference to no object: unreachable from Python *)
| AmbiguousCGFunction (n_defined_bins n_features : nat)
| ModelValueError (msg : string)
| ModelError (code : nat).  (* raised inside an external clustering model *)

Inductive result (A : Type) :=
| Ok (a : A)
| Raise (e : exn).
Arguments Ok {A} a.
Arguments Raise {A} e.

Definition result_bind {A B} (m : result A) (k : A -> result B) : result B :=
  match m with
  | Ok a => k a
  | Raise e => Raise e
  end.

(** ** Python arithmetic on the idealised numbers *)

Module Py.

(** [int(x)] on a float: truncation toward zero. *)
Definition int (x : Q) : Z := Z.quot (Qnum x) (Zpos (Qden x)).

(** [float(k)] on an int. *)
Definition float (k : Z) : Q := inject_Z k.

(** [a // b] on floats: the floor of the quotient, as a float. *)
Definition floordiv (a b : Q) : Q := inject_Z (Qfloor (a / b)).

(** [len(np.arange(start, stop, step))] for a non-zero step. *)
Definition arange_len (start stop step : Q) : Z :=
  Z.max 0 (Qceiling ((stop - start) / step)).

End Py.

(** ** ModuloBins *)

(** Fields [mod] and [rem] of the source ([mod] is a reserved notation here). *)
Record ModuloBins := mkModuloBins { mod_ : Z; rem_ : Z }.

(** [ModuloBins()] : the defaults of [__init__]. *)
Definition ModuloBins_default : ModuloBins := mkModuloBins 100 0.

Module Modulo.

Definition _id_to_bin_start (self : ModuloBins) (idx : Z) : Q :=
  Py.float (idx * mod_ self + rem_ self).

Definition _id_to_bin_center (self : ModuloBins) (idx : Z) : Q :=
  Py.float (idx * mod_ self + rem_ self) + inject_Z (mod_ self) / 2.

Definition _value_to_id (self : ModuloBins) (value : Q) : result Z :=
  if Z.eqb (mod_ self) 0 then Raise ArithmeticError
  else Ok (Py.int ((value - inject_Z (rem_ self)) / inject_Z (mod_ self))).

End Modulo.

(** ** LinSpaceBins and ArrangeBins *)

(** The attributes [min], [max], [n_bins], [step] set by both constructors.
    [ArrangeBins] subclasses [LinSpaceBins] and inherits its three methods;
    its extra attribute [bins] is only used for its length. *)
Record LinSpaceBins := mkLinSpaceBins {
  min_ : Q;
  max_ : Q;
  n_bins : Z;
  step : Q
}.

Definition LinSpaceBins_init (min max : Q) (n : Z) : result LinSpaceBins :=
  if Z.eqb n 0 then Raise ArithmeticError
  else Ok (mkLinSpaceBins min max n ((max - min) / inject_Z n)).

Definition ArrangeBins_init (min max stp : Q) : result LinSpaceBins :=
  if Qeq_bool stp 0 then Raise ArithmeticError
  else Ok (mkLinSpaceBins min max (Py.arange_len min max stp) stp).

Module LinSpace.

Definition _id_to_bin_start (self : LinSpaceBins) (idx : Z) : Q :=
  if Z.leb (n_bins self) idx then max_ self - step self
  else if Z.ltb idx 0 then min_ self
  else min_ self + inject_Z idx * step self.

Definition _id_to_bin_center (self : LinSpaceBins) (idx : Z) : Q :=
  if Z.leb (n_bins self) idx then max_ self - step self / 2
  else if Z.ltb idx 0 then min_ self + step self / 2
  else min_ self + inject_Z idx * step self + step self / 2.

Definition _value_to_id (self : LinSpaceBins) (value : Q) : result Z :=
  if Qle_bool value (min_ self) then Ok 0%Z
  else if negb (Qle_bool value (max_ self)) then Ok (n_bins self)
  else if Qeq_bool (step self) 0 then Raise ArithmeticError
  else Ok (Py.int (Py.floordiv (value - min_ self) (step self))).

End LinSpace.

(** Objects that the two constructors can return ([n_bins] of a
    [LinSpaceBins] is a positive count). *)
Inductive constructed : LinSpaceBins -> Prop :=
| constructed_LinSpaceBins min max n self :
    (0 < n)%Z -> LinSpaceBins_init min max n = Ok self -> constructed self
| constructed_ArrangeBins min max stp self :
    ArrangeBins_init min max stp = Ok self -> constructed self.


(** ** The three methods, dispatched on the object's class *)

Inductive BinStrategy :=
| BModulo (b : ModuloBins)
| BLinSpace (b : LinSpaceBins).   (* a [LinSpaceBins] or an [ArrangeBins] *)

Definition _value_to_id (binf : BinStrategy) (value : Q) : result Z :=
  match binf with
  | BModulo b => Modulo._value_to_id b value
  | BLinSpace b => LinSpace._value_to_id b value
  end.

Definition _id_to_bin_start (binf : BinStrategy) (idx : Z) : result Q :=
  match binf with
  | BModulo b => Ok (Modulo._id_to_bin_start b idx)
  | BLinSpace b => Ok (LinSpace._id_to_bin_start b idx)
  end.

Definition _id_to_bin_center (binf : BinStrategy) (idx : Z) : result Q :=
  match binf with
  | BModulo b => Ok (Modulo._id_to_bin_center b idx)
  | BLinSpace b => Ok (LinSpace._id_to_bin_center b idx)
  end.

(** ** numpy: vectorised functions and 2-D arrays *)

Fixpoint map_result {A B} (f : A -> result B) (xs : list A) : result (list B) :=
  match xs with
  | [] => Ok []
  | x :: xs' =>
      result_bind (f x) (fun y =>
      result_bind (map_result f xs') (fun ys => Ok (y :: ys)))
  end.

(** [np.vectorize(f)(xs)]: the output type is found by calling [f] on the
    first element, so a size-0 input is refused. *)
Definition vectorize {A B} (f : A -> result B) (xs : list A) : result (list B) :=
  match xs with
  | [] => Raise ValueError
  | _ :: _ => map_result f xs
  end.

(** A 2-D array: [shape = (length rows, n_features)]. *)
Record ndarray (A : Type) := mkArray {
  n_features : nat;
  rows : list (list A)
}.
Arguments mkArray {A} _ _.
Arguments n_features {A} _.
Arguments rows {A} _.

Definition n_samples {A} (X : ndarray A) : nat := length (rows X).

Definition well_shaped {A} (X : ndarray A) : Prop :=
  Forall (fun r => length r = n_features X) (rows X).

(** [np.zeros(X.shape)] *)
Definition zeros {A B} (zero : B) (X : ndarray A) : ndarray B :=
  mkArray (n_features X) (replicate (n_samples X) (replicate (n_features X) zero)).

(** [X[:, j]] *)
Definition column {A} (d : A) (j : nat) (X : ndarray A) : list A :=
  map (fun r => default d (r !! j)) (rows X).

(** [X[:, j] = col] *)
Definition set_column {A} (j : nat) (col : list A) (X : ndarray A) : ndarray A :=
  mkArray (n_features X) (zip_with (fun r x => <[j := x]> r) (rows X) col).

(** Lexicographic order on id rows, the order [np.unique(axis=0)] sorts by. *)
Fixpoint row_leb (r1 r2 : list Z) : bool :=
  match r1, r2 with
  | [], _ => true
  | _ :: _, [] => false
  | x :: r1', y :: r2' =>
      if Z.ltb x y then true
      else if Z.eqb x y then row_leb r1' r2'
      else false
  end.

Definition row_le (r1 r2 : list Z) : Prop := row_leb r1 r2 = true.

#[global] Instance row_le_dec : RelDecision row_le.
Proof. intros r1 r2. unfold row_le. apply _. Defined.

(** [np.unique(ids, axis=0)]: the distinct rows, sorted. *)
Definition unique (ids : ndarray Z) : ndarray Z :=
  mkArray (n_features ids) (merge_sort row_le (remove_dups (rows ids))).

(** ** Bins: the per-axis loop shared by its three array methods *)

Fixpoint for_each_axis {A B} (d : A) (f : BinStrategy -> A -> result B)
    (X : ndarray A) (axes : list (BinStrategy * nat)) (values : ndarray B)
  : result (ndarray B) :=
  match axes with
  | [] => Ok values
  | (binf, axis_idx) :: axes' =>
      result_bind (vectorize (f binf) (column d axis_idx X)) (fun col =>
      for_each_axis d f X axes' (set_column axis_idx col values))
  end.

Definition per_axis {A B} (d : A) (zero : B) (f : BinStrategy -> A -> result B)
    (bin_functions : list BinStrategy) (X : ndarray A) : result (ndarray B) :=
  if decide (n_features X = length bin_functions) then
    for_each_axis d f X (zip bin_functions (seq 0 (n_features X))) (zeros zero X)
  else Raise AssertionError.

(** What one row of the input becomes, column [i] through strategy [i]. *)
Fixpoint row_apply {A B} (f : BinStrategy -> A -> result B)
    (bin_functions : list BinStrategy) (r : list A) : result (list B) :=
  match bin_functions, r with
  | binf :: bfs, x :: r' =>
      result_bind (f binf x) (fun y =>
      result_bind (row_apply f bfs r') (fun ys => Ok (y :: ys)))
  | _, _ => Ok []
  end.

(** The loop invariant: columns [0 .. k-1] of [vs] hold what [f] makes of
    those columns of the rows [rs]; every row of [vs] has [n] entries. *)
Definition filled {A B} (f : BinStrategy -> A -> result B)
    (bfs : list BinStrategy) (n : nat) (rs : list (list A))
    (k : nat) (vs : list (list B)) : Prop :=
  length vs = length rs /\
  forall i r v, rs !! i = Some r -> vs !! i = Some v ->
    length v = n /\
    forall j bf x, (j < k)%nat -> bfs !! j = Some bf -> r !! j = Some x ->
      exists y, f bf x = Ok y /\ v !! j = Some y.

(** Steps 3 to 5 of [coarse_grain], for the strategies [bfs]: ids, distinct
    rows, centres. *)
Definition grain (bfs : list BinStrategy) (X : ndarray Q) : result (ndarray Q) :=
  result_bind (per_axis 0%Q 0%Z _value_to_id bfs X) (fun ids =>
  per_axis 0%Z 0%Q _id_to_bin_center bfs (unique ids)).

(** The line that [coarse_grain] prints before the auto-fill. *)
Definition notice : string :=
  "no axes defined, using default ModuloBins bins for coarse-graining".

(** ** Objects: the heap, the world and the monad of the wrappers *)

Definition loc := positive.

Inductive BinfClass := ModuloBinsClass | LinSpaceBinsClass | ArrangeBinsClass.

(** [cls()] with no argument: only [ModuloBins] has defaults for all of them. *)
Definition call_default (cls : BinfClass) : result BinStrategy :=
  match cls with
  | ModuloBinsClass => Ok (BModulo ModuloBins_default)
  | _ => Raise TypeError
  end.

Record BinsObj := mkBins {
  default_binf : BinfClass;
  bin_functions : list BinStrategy
}.

Inductive n_init_param := n_init_auto | n_init_int (n : Z).

(** The capabilities the wrappers need from a clustering model.  [M] is the
    state of a model object; a call that raises leaves the object as it was. *)
Class ClusterModel (M : Type) := {
  model_fit : M -> ndarray Q -> result M;
  model_predict : M -> ndarray Q -> result (list Z);
  model_fit_predict : M -> ndarray Q -> result (M * list Z);
  cluster_centers_ : M -> result (ndarray Q);
  set_params_n_init : n_init_param -> M -> M;
  set_params_init : ndarray Q -> M -> M;
  OPTICS_new : M;
  KMeans_new : M
}.

Record World (M : Type) := mkWorld {
  bins_heap : gmap loc BinsObj;
  model_heap : gmap loc M;
  stdout : list string
}.
Arguments mkWorld {M} _ _ _.
Arguments bins_heap {M} _.
Arguments model_heap {M} _.
Arguments stdout {M} _.

Definition PyM (M A : Type) : Type := World M -> result A * World M.

Definition ret {M A} (a : A) : PyM M A := fun w => (Ok a, w).

Definition raise {M A} (e : exn) : PyM M A := fun w => (Raise e, w).

Definition bind {M A B} (m : PyM M A) (k : A -> PyM M B) : PyM M B :=
  fun w =>
    match m w with
    | (Ok a, w') => k a w'
    | (Raise e, w') => (Raise e, w')
    end.

Definition lift {M A} (r : result A) : PyM M A := fun w => (r, w).

Notation "'let!' x ':=' m 'in' k" := (bind m (fun x => k))
  (at level 10, x name, m at level 100, k at level 200).
Notation "'exec!' m 'in' k" := (bind m (fun _ => k))
  (at level 10, m at level 100, k at level 200).

(** The three scoring functions imported from [sklearn.metrics.cluster],
    called as [score(y_true, y_pred)]. *)
Class Metrics := {
  rand_score : list Z -> list Z -> result Q;
  homogeneity_score : list Z -> list Z -> result Q;
  completeness_score : list Z -> list Z -> result Q
}.

(** ** Bins, CGCluster and KMCalico *)

Section Wrappers.

Context {M : Type} `{ClusterModel M}.

(** *** Heap access *)

Definition read_bins (l : loc) : PyM M BinsObj := fun w =>
  match bins_heap w !! l with
  | Some b => (Ok b, w)
  | None => (Raise SystemError, w)
  end.

Definition write_bins (l : loc) (b : BinsObj) : PyM M unit := fun w =>
  (Ok tt, mkWorld (<[l := b]> (bins_heap w)) (model_heap w) (stdout w)).

Definition new_bins (b : BinsObj) : PyM M loc := fun w =>
  let l := fresh (dom (bins_heap w)) in
  (Ok l, mkWorld (<[l := b]> (bins_heap w)) (model_heap w) (stdout w)).

Definition read_model (l : loc) : PyM M M := fun w =>
  match model_heap w !! l with
  | Some m => (Ok m, w)
  | None => (Raise SystemError, w)
  end.

Definition write_model (l : loc) (m : M) : PyM M unit := fun w =>
  (Ok tt, mkWorld (bins_heap w) (<[l := m]> (model_heap w)) (stdout w)).

Definition new_model (m : M) : PyM M loc := fun w =>
  let l := fresh (dom (model_heap w)) in
  (Ok l, mkWorld (bins_heap w) (<[l := m]> (model_heap w)) (stdout w)).

Definition deepcopy (l : loc) : PyM M loc :=
  let! m := read_model l in new_model m.

(** The world with the object at [l] replaced. *)
Definition with_bins (l : loc) (b : BinsObj) (w : World M) : World M :=
  mkWorld (<[l := b]> (bins_heap w)) (model_heap w) (stdout w).

Definition with_model (l : loc) (m : M) (w : World M) : World M :=
  mkWorld (bins_heap w) (<[l := m]> (model_heap w)) (stdout w).

Definition print (line : string) : PyM M unit := fun w =>
  (Ok tt, mkWorld (bins_heap w) (model_heap w) (stdout w ++ [line])).

(** *** Calls into a model object *)

Definition call_fit (l : loc) (X : ndarray Q) : PyM M unit :=
  let! m := read_model l in
  let! m' := lift (model_fit m X) in
  write_model l m'.

Definition call_predict (l : loc) (X : ndarray Q) : PyM M (list Z) :=
  let! m := read_model l in lift (model_predict m X).

Definition call_fit_predict (l : loc) (X : ndarray Q) : PyM M (list Z) :=
  let! m := read_model l in
  let! r := lift (model_fit_predict m X) in
  exec! write_model l (fst r) in
  ret (snd r).

Definition get_cluster_centers_ (l : loc) : PyM M (ndarray Q) :=
  let! m := read_model l in lift (cluster_centers_ m).

Definition call_set_params (l : loc) (f : M -> M) : PyM M unit :=
  let! m := read_model l in write_model l (f m).

(** *** class Bins *)

Definition Bins_init (default_binf : BinfClass) : PyM M loc :=
  new_bins (mkBins default_binf []).

Definition add_axis (self : loc) (binf : option BinStrategy) : PyM M unit :=
  let! b := read_bins self in
  let! binf := match binf with
               | Some f => ret f
               | None => lift (call_default (default_binf b))
               end in
  write_bins self (mkBins (default_binf b) (bin_functions b ++ [binf])).

Fixpoint add_axes (self : loc) (binfs : list BinStrategy) : PyM M unit :=
  match binfs with
  | [] => ret tt
  | binf :: binfs' =>
      exec! add_axis self (Some binf) in add_axes self binfs'
  end.

Definition get_num_axes (self : loc) : PyM M nat :=
  let! b := read_bins self in ret (length (bin_functions b)).

Definition get_binf (self : loc) (axis : nat) : PyM M BinStrategy :=
  let! b := read_bins self in
  match bin_functions b !! axis with
  | Some f => ret f
  | None => raise IndexError
  end.

(** The wrappers pass 2-D arrays only; the reshape of a 1-D argument is
    not modelled. *)
Definition Bins_id_to_bin_start (self : loc) (ids : ndarray Z) : PyM M (ndarray Q) :=
  let! b := read_bins self in
  lift (per_axis 0%Z 0 _id_to_bin_start (bin_functions b) ids).

Definition Bins_id_to_bin_center (self : loc) (ids : ndarray Z) : PyM M (ndarray Q) :=
  let! b := read_bins self in
  lift (per_axis 0%Z 0 _id_to_bin_center (bin_functions b) ids).

Definition Bins_value_to_id (self : loc) (values : ndarray Q) : PyM M (ndarray Z) :=
  let! b := read_bins self in
  lift (per_axis 0 0%Z _value_to_id (bin_functions b) values).

(** *** The default arguments, evaluated once when the module is loaded *)

Record Globals := mkGlobals {
  CGCluster_default_bins : loc;     (* [bins=Bins()] of [CGCluster.__init__] *)
  CGCluster_default_model : loc;    (* [model=OPTICS()] *)
  KMCalico_default_bins : loc;      (* [bins=Bins()] of [KMCalico.__init__] *)
  KMCalico_default_model : loc      (* [k_means_model=KMeans()] *)
}.

(** [binf=ModuloBins(100)] of [fit_uniform_coarse_grain]. *)
Definition fit_uniform_default_binf : BinStrategy := BModulo (mkModuloBins 100 0).

Definition import_module : PyM M Globals :=
  let! b1 := Bins_init ModuloBinsClass in
  let! m1 := new_model OPTICS_new in
  let! b2 := Bins_init ModuloBinsClass in
  let! m2 := new_model KMeans_new in
  ret (mkGlobals b1 m1 b2 m2).

(** *** class CGCluster *)

Record CGCluster := mkCGCluster {
  bins : loc;
  model : loc;
  coarse_model : loc
}.

Definition CGCluster_init (g : Globals) (bins model : option loc) : PyM M CGCluster :=
  let bins := default (CGCluster_default_bins g) bins in
  let model := default (CGCluster_default_model g) model in
  let! coarse_model := deepcopy model in
  ret (mkCGCluster bins model coarse_model).

Definition fit_uniform_coarse_grain (self : CGCluster) (n_features : nat)
    (binf : option BinStrategy) : PyM M unit :=
  let binf := default fit_uniform_default_binf binf in
  let bin_functions := replicate n_features binf in
  add_axes (bins self) bin_functions.

Definition coarse_grain (self : CGCluster) (X : ndarray Q) : PyM M (ndarray Q) :=
  let n_features := n_features X in
  let! n_defined_bins := get_num_axes (bins self) in
  exec! (if Nat.eqb n_defined_bins 0 then
           exec! print "no axes defined, using default ModuloBins bins for coarse-graining" in
           fit_uniform_coarse_grain self n_features None
         else if Nat.ltb n_defined_bins n_features then
           raise (AmbiguousCGFunction n_defined_bins n_features)
         else ret tt) in
  let! x_grained_bins := Bins_value_to_id (bins self) X in
  let x_grained_bins := unique x_grained_bins in
  let! x_grained_centers := Bins_id_to_bin_center (bins self) x_grained_bins in
  ret x_grained_centers.

Definition CGCluster_fit (self : CGCluster) (X : ndarray Q) : PyM M unit :=
  let! x_grained_centers := coarse_grain self X in
  call_fit (coarse_model self) x_grained_centers.

Definition CGCluster_predict (self : CGCluster) (X : ndarray Q) (mode : string)
  : PyM M (list Z) :=
  if String.eqb mode "coarse" then call_predict (coarse_model self) X
  else if String.eqb mode "default" then call_fit_predict (model self) X
  else raise (ModelValueError "model must be coarse or default").

(** *** class KMCalico(CGCluster) *)

Record KMCalico := mkKMCalico {
  as_CGCluster : CGCluster;   (* [bins], [model], [coarse_model] *)
  fine_model : loc
}.

Definition KMCalico_init (g : Globals) (bins k_means_model : option loc)
  : PyM M KMCalico :=
  let bins := default (KMCalico_default_bins g) bins in
  let k_means_model := default (KMCalico_default_model g) k_means_model in
  let! coarse_model := deepcopy k_means_model in
  exec! call_set_params coarse_model (set_params_n_init n_init_auto) in
  let! fine_model := deepcopy k_means_model in
  exec! call_set_params fine_model (set_params_n_init (n_init_int 1)) in
  ret (mkKMCalico (mkCGCluster bins k_means_model coarse_model) fine_model).

Definition KMCalico_fit (self : KMCalico) (X : ndarray Q) : PyM M unit :=
  let! x_grained_centers := coarse_grain (as_CGCluster self) X in
  exec! call_fit (coarse_model (as_CGCluster self)) x_grained_centers in
  let! coarse_centers := get_cluster_centers_ (coarse_model (as_CGCluster self)) in
  exec! call_set_params (fine_model self) (set_params_init coarse_centers) in
  call_fit (fine_model self) X.

Definition KMCalico_predict (self : KMCalico) (X : ndarray Q) (mode : string)
    (return_centers : bool) : PyM M (list Z * option (ndarray Q)) :=
  let! chosen :=
    (if String.eqb mode "fine" then
       let! y_pred := call_predict (fine_model self) X in
       let! centers := get_cluster_centers_ (fine_model self) in
       ret (y_pred, centers)
     else if String.eqb mode "coarse" then
       let! y_pred := call_predict (coarse_model (as_CGCluster self)) X in
       let! centers := get_cluster_centers_ (coarse_model (as_CGCluster self)) in
       ret (y_pred, centers)
     else if String.eqb mode "default" then
       let! y_pred := call_fit_predict (model (as_CGCluster self)) X in
       let! centers := get_cluster_centers_ (model (as_CGCluster self)) in
       ret (y_pred, centers)
     else raise (ModelValueError "model must be fine, coarse, or default")) in
  if return_centers then ret (fst chosen, Some (snd chosen))
  else ret (fst chosen, None).

(** *** scores, inherited by KMCalico *)

Context `{Metrics}.

(** The dictionary that [scores] builds from the predicted labels. *)
Definition score_summary (y_true y_pred : list Z) : result (gmap string Q) :=
  result_bind (rand_score y_true y_pred) (fun r_score =>
  result_bind (homogeneity_score y_true y_pred) (fun h_score =>
  result_bind (completeness_score y_true y_pred) (fun c_score =>
  Ok (<["n_misclassified" :=
          (inject_Z (Z.of_nat (length y_true)) * (1 - r_score))%Q]>
     (<["completeness_score" := c_score]>
     (<["homogeneity_score" := h_score]>
     (<["rand_score" := r_score]> ∅))))))).

Definition CGCluster_scores (self : CGCluster) (X : ndarray Q) (y_true : list Z)
    (mode : string) : PyM M (gmap string Q) :=
  let! y_pred := CGCluster_predict self X mode in
  lift (score_summary y_true y_pred).

(** [self.predict] is the override of [KMCalico], called with
    [return_centers] left at [False]. *)
Definition KMCalico_scores (self : KMCalico) (X : ndarray Q) (y_true : list Z)
    (mode : string) : PyM M (gmap string Q) :=
  let! r := KMCalico_predict self X mode false in
  lift (score_summary y_true (fst r)).

End Wrappers.

(** ** A model that records what it was fitted on

    A small stand-in for a centroid model, used to run the wrappers on
    concrete inputs: fitting stores the data, the centres are the first row
    of the data last fitted, every sample gets label 0. *)

Record Recorder := mkRecorder {
  rec_n_init : option n_init_param;
  rec_init : option (ndarray Q);
  rec_fitted : option (ndarray Q)
}.

Definition Recorder_fit (m : Recorder) (X : ndarray Q) : Recorder :=
  mkRecorder (rec_n_init m) (rec_init m) (Some X).

Definition Recorder_labels (X : ndarray Q) : list Z := map (fun _ => 0%Z) (rows X).

#[global] Instance Recorder_model : ClusterModel Recorder := {|
  model_fit m X := Ok (Recorder_fit m X);
  model_predict m X :=
    match rec_fitted m with
    | Some _ => Ok (Recorder_labels X)
    | None => Raise (ModelError 0)
    end;
  model_fit_predict m X := Ok (Recorder_fit m X, Recorder_labels X);
  cluster_centers_ m :=
    match rec_fitted m with
    | Some F => Ok (mkArray (n_features F) (take 1 (rows F)))
    | None => Raise AttributeError
    end;
  set_params_n_init p m := mkRecorder (Some p) (rec_init m) (rec_fitted m);
  set_params_init c m := mkRecorder (rec_n_init m) (Some c) (rec_fitted m);
  OPTICS_new := mkRecorder None None None;
  KMeans_new := mkRecorder None None None
|}.

(** Scores for running the wrappers: the share of positions where the two
    label lists agree, for all three. *)
Definition agreement (y_true y_pred : list Z) : result Q :=
  if decide (length y_true = length y_pred) then
    Ok (inject_Z (Z.of_nat (length (filter (fun p => fst p = snd p) (zip y_true y_pred))))
        / inject_Z (Z.of_nat (length y_true)))%Q
  else Raise ValueError.

#[global] Instance agreement_metrics : Metrics := {|
  rand_score := agreement;
  homogeneity_score := agreement;
  completeness_score := agreement
|}.

(** The world before the module is loaded. *)
Definition empty_world {M} : World M := mkWorld ∅ ∅ [].

(** *** Sample data *)

(** Three samples with two features; the first two fall in the same cell of
    the default grid. *)
Definition sample_X : ndarray Q :=
  mkArray 2 [[1253; 254]; [1260; 270]; [3098; 490]]%Q.

(** A wrapper whose [Bins] object is at 1, template model at 1, coarse model
    at 2. *)
Definition sample_cg : CGCluster := mkCGCluster 1%positive 1%positive 2%positive.

Definition sample_models : gmap loc Recorder :=
  <[2%positive := KMeans_new]> (<[1%positive := KMeans_new]> ∅).

(** No axis configured. *)
Definition world_no_axes : World Recorder :=
  mkWorld (<[1%positive := mkBins ModuloBinsClass []]> ∅) sample_models [].

(** A [KMCalico] on the same objects, its fine model at 3. *)
Definition sample_km : KMCalico := mkKMCalico sample_cg 3%positive.

Definition world_km : World Recorder :=
  mkWorld (<[1%positive := mkBins ModuloBinsClass []]> ∅)
    (<[3%positive := set_params_n_init (n_init_int 1) KMeans_new]>
       (<[2%positive := set_params_n_init n_init_auto KMeans_new]>
          (<[1%positive := KMeans_new]> ∅))) [].

(** The world after the module is loaded, and its default objects. *)
Definition loaded_world : World Recorder := snd (import_module empty_world).

Definition loaded_globals : Globals :=
  mkGlobals 1%positive 1%positive 2%positive 2%positive.

(** The worlds after a first [CGCluster()], a second one, and a [KMCalico()]. *)
Definition world_a : World Recorder :=
  snd (CGCluster_init loaded_globals None None loaded_world).

Definition world_b : World Recorder :=
  snd (CGCluster_init loaded_globals None None world_a).

Definition world_ka : World Recorder :=
  snd (KMCalico_init loaded_globals None None world_b).

(** One axis configured, for data with two features. *)
Definition world_one_axis : World Recorder :=
  mkWorld (<[1%positive := mkBins ModuloBinsClass [BModulo (mkModuloBins 25 0)]]> ∅)
    sample_models [].
(** ** Facts about the arithmetic *)

(** Two axes configured, and two others sharing the first strategy. *)
Definition world_two_axes : World Recorder :=
  mkWorld (<[1%positive := mkBins ModuloBinsClass
                             [BModulo (mkModuloBins 100 0); BModulo (mkModuloBins 25 0)]]> ∅)
    sample_models [].

Definition world_two_other_axes : World Recorder :=
  mkWorld (<[1%positive := mkBins ModuloBinsClass
                             [BModulo (mkModuloBins 100 0); BModulo (mkModuloBins 7 3)]]> ∅)
    sample_models [].

(** Three axes configured. *)
Definition world_three_axes : World Recorder :=
  mkWorld (<[1%positive := mkBins ModuloBinsClass
                             [BModulo (mkModuloBins 100 0); BModulo (mkModuloBins 25 0);
                              BModulo (mkModuloBins 10 0)]]> ∅)
    sample_models [].

(** The first column of [sample_X] with another second column. *)
Definition sample_X_other : ndarray Q :=
  mkArray 2 [[1253; 9]; [1260; 8]; [3098; 7]]%Q.


(** Two features and no sample; one sample with three features. *)
Definition sample_X_empty : ndarray Q := mkArray 2 [].

Definition sample_X_wide : ndarray Q := mkArray 3 [[1; 2; 3]]%Q.

Definition sample_X_narrow : ndarray Q := mkArray 1 [[5]]%Q.



(** A centroid model that wants at least two samples, as a k-means with two
    clusters does; its centres are the data it was fitted on. *)
Inductive Picky :=
| picky_new
| picky_fitted (centers : ndarray Q).

Definition Picky_fit (X : ndarray Q) : result Picky :=
  if Nat.ltb (n_samples X) 2 then Raise (ModelError 1) else Ok (picky_fitted X).

#[global] Instance Picky_model : ClusterModel Picky := {|
  model_fit m X := Picky_fit X;
  model_predict m X :=
    match m with
    | picky_fitted _ => Ok (Recorder_labels X)
    | picky_new => Raise (ModelError 0)
    end;
  model_fit_predict m X :=
    result_bind (Picky_fit X) (fun m' => Ok (m', Recorder_labels X));
  cluster_centers_ m :=
    match m with
    | picky_fitted c => Ok c
    | picky_new => Raise AttributeError
    end;
  set_params_n_init p m := m;
  set_params_init c m := m;
  OPTICS_new := picky_new;
  KMeans_new := picky_new
|}.


(** A world in which the coarse model of [sample_cg] has been fitted. *)
Definition world_fitted : World Recorder :=
  snd (CGCluster_fit sample_cg sample_X world_no_axes).

Definition world_km_fitted : World Recorder :=
  snd (KMCalico_fit sample_km sample_X world_km).



Lemma Qle_bool_false (x y : Q) : Qle_bool x y = false <-> y < x.
Proof.
  split; intros H.
  - apply Qnot_le_lt. intros Hle. apply Qle_bool_iff in Hle. congruence.
  - destruct (Qle_bool x y) eqn:E; [|reflexivity].
    apply Qle_bool_iff in E. exfalso. apply (Qlt_not_le _ _ H E).
Qed.

Lemma Qeq_bool_false (x y : Q) : Qeq_bool x y = false <-> ~ x == y.
Proof.
  split.
  - intros H Heq. apply Qeq_bool_iff in Heq. congruence.
  - intros H. destruct (Qeq_bool x y) eqn:E; [|reflexivity].
    apply Qeq_bool_iff in E. contradiction.
Qed.

Lemma LinSpaceBins_init_inv min max n self :
  LinSpaceBins_init min max n = Ok self ->
  n <> 0%Z /\ self = mkLinSpaceBins min max n ((max - min) / inject_Z n).
Proof.
  unfold LinSpaceBins_init. destruct (Z.eqb_spec n 0); [discriminate|].
  intros [= <-]. auto.
Qed.

Lemma inject_Z_nonzero (n : Z) : n <> 0%Z -> ~ inject_Z n == 0.
Proof. unfold Qeq. simpl. lia. Qed.




Lemma int_nonneg (x : Q) : 0 <= x -> Py.int x = Qfloor x.
Proof.
  destruct x as [a b]. unfold Qle, Py.int, Qfloor. simpl. intros Ha.
  apply Z.quot_div_nonneg; lia.
Qed.



Lemma constructed_n_bins_nonneg self : constructed self -> (0 <= n_bins self)%Z.
Proof.
  intros [min max n s Hn Hi | min max stp s Hi].
  - apply LinSpaceBins_init_inv in Hi as [_ ->]. simpl. lia.
  - unfold ArrangeBins_init in Hi. destruct (Qeq_bool stp 0); [discriminate|].
    injection Hi as <-. simpl. unfold Py.arange_len. lia.
Qed.




(** ** LinSpaceBins: value to id *)




(** ** ModuloBins: truncation where the spec has a floor *)

(** C2 at the failing input.  [ModuloBins(100, 0)._value_to_id(-50)] is [0]
    ([int] truncates toward zero) while [floor((-50 - 0) / 100)] is [-1];
    the start and the centre of bin [0] are [0] and [50]. *)
Theorem ModuloBins_value_to_id_truncates :
  Modulo._value_to_id (mkModuloBins 100 0) (-50) = Ok 0%Z
  /\ Qfloor ((-50 - inject_Z 0) / inject_Z 100) = (-1)%Z
  /\ Modulo._id_to_bin_start (mkModuloBins 100 0) 0 == 0
  /\ Modulo._id_to_bin_center (mkModuloBins 100 0) 0 == 50.
Proof. repeat split; reflexivity. Qed.

(** ** LinSpaceBins and ArrangeBins: id to bin start and centre *)

(** C3.  For an object made by [LinSpaceBins] (positive [n_bins]) or by
    [ArrangeBins]: an id [>= n_bins] has start [max - step] and centre
    [max - step/2]; an id [< 0] has start [min] and centre [min + step/2];
    an id with [0 <= id < n_bins] has start [min + id*step] and centre
    [min + id*step + step/2]. *)
Theorem LinSpaceBins_id_to_bin_clamped self (idx : Z) :
  constructed self ->
  ((n_bins self <= idx)%Z ->
     LinSpace._id_to_bin_start self idx = max_ self - step self
     /\ LinSpace._id_to_bin_center self idx = max_ self - step self / 2)
  /\ ((idx < 0)%Z ->
     LinSpace._id_to_bin_start self idx = min_ self
     /\ LinSpace._id_to_bin_center self idx = min_ self + step self / 2)
  /\ ((0 <= idx)%Z -> (idx < n_bins self)%Z ->
     LinSpace._id_to_bin_start self idx = min_ self + inject_Z idx * step self
     /\ LinSpace._id_to_bin_center self idx
        = min_ self + inject_Z idx * step self + step self / 2).
Proof.
  intros Hc. pose proof (constructed_n_bins_nonneg _ Hc) as Hn.
  unfold LinSpace._id_to_bin_start, LinSpace._id_to_bin_center.
  repeat split; intros;
    destruct (Z.leb_spec (n_bins self) idx); try lia;
    destruct (Z.ltb_spec idx 0); try lia; reflexivity.
Qed.

Lemma LinSpaceBins_id_to_bin_clamped_witness :
  exists self, LinSpaceBins_init 0 3000 3 = Ok self /\
  ((n_bins self <= 3)%Z ->
     LinSpace._id_to_bin_start self 3 = max_ self - step self
     /\ LinSpace._id_to_bin_center self 3 = max_ self - step self / 2)
  /\ ((3 < 0)%Z ->
     LinSpace._id_to_bin_start self 3 = min_ self
     /\ LinSpace._id_to_bin_center self 3 = min_ self + step self / 2)
  /\ ((0 <= 3)%Z -> (3 < n_bins self)%Z ->
     LinSpace._id_to_bin_start self 3 = min_ self + inject_Z 3 * step self
     /\ LinSpace._id_to_bin_center self 3
        = min_ self + inject_Z 3 * step self + step self / 2).
Proof.
  eexists. split; [reflexivity|].
  apply LinSpaceBins_id_to_bin_clamped.
  apply (constructed_LinSpaceBins 0 3000 3); [lia | reflexivity].
Defined.

(** ** LinSpaceBins: the centre of the bin a value falls in *)



Close Scope Q_scope.

(** ** Vectorised calls and the per-axis loop *)

Section PerAxis.

Context {A B : Type} (d : A) (f : BinStrategy -> A -> result B).

Lemma map_result_Ok (g : A -> result B) xs ys :
  map_result g xs = Ok ys <-> Forall2 (fun x y => g x = Ok y) xs ys.
Proof.
  revert ys. induction xs as [|x xs IH]; intros ys; simpl.
  - split.
    + intros [= <-]. constructor.
    + intros Hf. inversion Hf. reflexivity.
  - split.
    + destruct (g x) as [y|e] eqn:Ex; simpl; [|discriminate].
      destruct (map_result g xs) as [ys'|e] eqn:Exs; simpl; [|discriminate].
      intros [= <-]. constructor; [assumption|]. now apply IH.
    + intros Hf. inversion Hf as [|? y ? ys' Hx Hxs]; subst.
      rewrite Hx. simpl. apply IH in Hxs. rewrite Hxs. reflexivity.
Qed.

Lemma map_result_total (g : A -> result B) xs :
  (forall x, x ∈ xs -> exists y, g x = Ok y) ->
  exists ys, map_result g xs = Ok ys.
Proof.
  induction xs as [|x xs IH]; intros Hg; simpl.
  - eauto.
  - destruct (Hg x) as [y Hy]; [left|]. rewrite Hy. simpl.
    destruct IH as [ys Hys]; [intros; apply Hg; now right|].
    rewrite Hys. simpl. eauto.
Qed.

Lemma vectorize_Ok (g : A -> result B) xs ys :
  vectorize g xs = Ok ys -> Forall2 (fun x y => g x = Ok y) xs ys.
Proof.
  destruct xs as [|x xs]; simpl; [discriminate|].
  intros Hm. now apply (map_result_Ok g (x :: xs)).
Qed.

Lemma filled_zeros bfs (zero : B) (X : ndarray A) :
  filled f bfs (n_features X) (rows X) 0 (rows (zeros zero X)).
Proof.
  unfold filled, zeros, n_samples. simpl. split.
  - apply length_replicate.
  - intros i r v _ Hv. apply lookup_replicate in Hv as [-> _].
    split; [apply length_replicate|]. intros; lia.
Qed.

Lemma filled_set_column bfs (X : ndarray A) k bf col vs :
  k < n_features X -> bfs !! k = Some bf ->
  vectorize (f bf) (column d k X) = Ok col ->
  filled f bfs (n_features X) (rows X) k vs ->
  filled f bfs (n_features X) (rows X) (S k)
    (rows (set_column k col (mkArray (n_features X) vs))).
Proof.
  intros Hk Hbf Hcol [Hlen Hfill].
  apply vectorize_Ok in Hcol.
  pose proof (Forall2_length _ _ _ Hcol) as Hcl.
  unfold column in Hcl. rewrite length_map in Hcl.
  unfold filled, set_column. simpl. split.
  - rewrite length_zip_with. lia.
  - intros i r v' Hr Hv'.
    apply lookup_zip_with_Some in Hv' as (v & y & -> & Hv & Hy).
    destruct (Hfill i r v Hr Hv) as [Hlv Hcols].
    split; [now rewrite length_insert|].
    intros j bf' x Hj Hbf' Hx.
    destruct (decide (j = k)) as [->|Hne].
    + rewrite Hbf in Hbf'. injection Hbf' as <-.
      exists y. split.
      * assert (Hc : column d k X !! i = Some x).
        { unfold column. rewrite list_lookup_fmap, Hr. simpl. now rewrite Hx. }
        eapply Forall2_lookup_lr in Hcol; eauto.
      * apply list_lookup_insert_eq. lia.
    + rewrite list_lookup_insert_ne by done.
      apply (Hcols j bf' x); [lia | assumption | assumption].
Qed.

Lemma for_each_axis_filled bfs (X : ndarray A) rest :
  forall k vs Y,
    k + length rest = n_features X ->
    (forall j bf, rest !! j = Some bf -> bfs !! (k + j) = Some bf) ->
    filled f bfs (n_features X) (rows X) k vs ->
    for_each_axis d f X (zip rest (seq k (length rest)))
      (mkArray (n_features X) vs) = Ok Y ->
    n_features Y = n_features X
    /\ filled f bfs (n_features X) (rows X) (n_features X) (rows Y).
Proof.
  induction rest as [|bf rest IH]; intros k vs Y Hk Hbfs Hfill Hrun; simpl in *.
  - injection Hrun as <-. simpl. split; [reflexivity|].
    now replace (n_features X) with k at 2 by lia.
  - destruct (vectorize (f bf) (column d k X)) as [col|e] eqn:Hcol;
      simpl in Hrun; [|discriminate].
    unfold set_column in Hrun. simpl in Hrun.
    apply (IH (S k) (zip_with (fun r x => <[k := x]> r) vs col) Y);
      [lia | | | exact Hrun].
    + intros j bf' Hj. replace (S k + j) with (k + S j) by lia.
      now apply Hbfs.
    + apply (filled_set_column bfs X k bf col vs); [lia| |exact Hcol|exact Hfill].
      specialize (Hbfs 0 bf eq_refl). now rewrite Nat.add_0_r in Hbfs.
Qed.

Lemma row_apply_intro bfs : forall (r : list A) (v : list B),
  length r = length bfs -> length v = length bfs ->
  (forall j bf x, bfs !! j = Some bf -> r !! j = Some x ->
     exists y, f bf x = Ok y /\ v !! j = Some y) ->
  row_apply f bfs r = Ok v.
Proof.
  induction bfs as [|bf bfs IH]; intros r v Hr Hv Hcols.
  - destruct v; [reflexivity|discriminate].
  - destruct r as [|x r]; [discriminate|]. destruct v as [|y v]; [discriminate|].
    simpl in *.
    destruct (Hcols 0 bf x eq_refl eq_refl) as (y' & Hy' & [= <-]).
    rewrite Hy'. simpl.
    rewrite (IH r v); [reflexivity | lia | lia |].
    intros j bf' x' Hbf' Hx'. apply (Hcols (S j) bf' x' Hbf' Hx').
Qed.

(** The loop over the axes computes, row by row, [row_apply]. *)
Lemma per_axis_rows (zero : B) bfs (X : ndarray A) Y :
  well_shaped X ->
  per_axis d zero f bfs X = Ok Y ->
  n_features X = length bfs
  /\ n_features Y = n_features X
  /\ Forall2 (fun r y => row_apply f bfs r = Ok y) (rows X) (rows Y).
Proof.
  intros Hws. unfold per_axis.
  destruct (decide (n_features X = length bfs)) as [Hn|]; [|discriminate].
  intros Hrun. split; [assumption|].
  rewrite Hn in Hrun at 1.
  destruct (for_each_axis_filled bfs X bfs 0 (rows (zeros zero X)) Y)
    as [HnY [Hlen Hfill]].
  - simpl. lia.
  - intros j bf Hj. exact Hj.
  - apply filled_zeros.
  - exact Hrun.
  - split; [assumption|].
    apply Forall2_same_length_lookup_2; [lia|].
    intros i r y Hr Hy. destruct (Hfill i r y Hr Hy) as [Hly Hcols].
    apply row_apply_intro.
    + unfold well_shaped in Hws. rewrite Forall_lookup in Hws.
      rewrite (Hws i r Hr). assumption.
    + lia.
    + intros j bf x Hbf Hx. apply (Hcols j bf x); [|assumption|assumption].
      apply lookup_lt_Some in Hbf. lia.
Qed.

Lemma per_axis_n_samples (zero : B) bfs (X : ndarray A) Y :
  per_axis d zero f bfs X = Ok Y -> n_samples Y = n_samples X.
Proof.
  unfold per_axis.
  destruct (decide (n_features X = length bfs)) as [Hn|]; [|discriminate].
  intros Hrun. rewrite Hn in Hrun at 1.
  destruct (for_each_axis_filled bfs X bfs 0 (rows (zeros zero X)) Y)
    as [_ [Hlen _]]; try assumption.
  - simpl. lia.
  - intros j bf Hj. exact Hj.
  - apply filled_zeros.
Qed.

Lemma per_axis_n_features (zero : B) bfs (X : ndarray A) Y :
  per_axis d zero f bfs X = Ok Y -> n_features Y = n_features X.
Proof.
  unfold per_axis.
  destruct (decide (n_features X = length bfs)) as [Hn|]; [|discriminate].
  intros Hrun. rewrite Hn in Hrun at 1.
  destruct (for_each_axis_filled bfs X bfs 0 (rows (zeros zero X)) Y)
    as [HnY _]; try assumption.
  - simpl. lia.
  - intros j bf Hj. exact Hj.
  - apply filled_zeros.
Qed.

Lemma for_each_axis_total (X : ndarray A) axes :
  rows X <> [] ->
  (forall bf j, (bf, j) ∈ axes -> forall x, exists y, f bf x = Ok y) ->
  forall vs, exists Y, for_each_axis d f X axes vs = Ok Y.
Proof.
  intros Hne. induction axes as [|[bf j] axes IH]; intros Hf vs; simpl.
  - eauto.
  - assert (Hcol : exists col, vectorize (f bf) (column d j X) = Ok col).
    { unfold column. destruct (rows X) as [|r rs] eqn:E; [done|].
      simpl. apply (map_result_total (f bf) (_ :: _)).
      intros x _. apply (Hf bf j). left. }
    destruct Hcol as [col ->]. simpl. apply IH.
    intros bf' j' Hin. apply (Hf bf' j'). now right.
Qed.

(** With as many strategies as columns, a sample to work on and an [f]
    that does not raise, the loop returns. *)
Lemma per_axis_total (zero : B) bfs (X : ndarray A) :
  n_features X = length bfs -> rows X <> [] ->
  (forall bf, bf ∈ bfs -> forall x, exists y, f bf x = Ok y) ->
  exists Y, per_axis d zero f bfs X = Ok Y.
Proof.
  intros Hn Hne Hf. unfold per_axis.
  destruct (decide (n_features X = length bfs)); [|done].
  apply for_each_axis_total; [assumption|].
  intros bf j Hin. apply Hf. apply elem_of_zip_l in Hin. assumption.
Qed.

End PerAxis.

(** ** Distinct rows *)

Lemma remove_dups_length_le {A} `{EqDecision A} (l : list A) :
  length (remove_dups l) <= length l.
Proof.
  induction l as [|x l IH]; simpl; [lia|].
  destruct (decide_rel elem_of x l); simpl; lia.
Qed.

Lemma remove_dups_length_eq {A} `{EqDecision A} (l : list A) :
  length (remove_dups l) = length l <-> NoDup l.
Proof.
  induction l as [|x l IH]; simpl.
  - split; [constructor|reflexivity].
  - pose proof (remove_dups_length_le l) as Hle.
    destruct (decide_rel elem_of x l) as [Hin|Hnin]; simpl.
    + split; [lia|]. intros Hnd. apply NoDup_cons in Hnd as [Hx _]. contradiction.
    + split.
      * intros Hlen. apply NoDup_cons. split; [assumption|]. apply IH. lia.
      * intros Hnd. apply NoDup_cons in Hnd as [_ Hnd]. apply IH in Hnd. lia.
Qed.

Lemma unique_n_samples (ids : ndarray Z) :
  n_samples (unique ids) = length (remove_dups (rows ids)).
Proof.
  unfold n_samples, unique. simpl.
  apply Permutation_length, merge_sort_Permutation.
Qed.

Lemma unique_rows_nonempty (ids : ndarray Z) :
  rows ids <> [] -> rows (unique ids) <> [].
Proof.
  intros Hne Hnil.
  pose proof (unique_n_samples ids) as Hlen. unfold n_samples in Hlen.
  rewrite Hnil in Hlen. simpl in Hlen.
  destruct (rows ids) as [|r rs]; [done|].
  assert (Hin : r ∈ remove_dups (r :: rs)) by (apply elem_of_remove_dups; left).
  destruct (remove_dups (r :: rs)); [inversion Hin | discriminate].
Qed.

(** ** Running the methods of [Bins] and [coarse_grain] *)

Section Running.

Context {M : Type} `{ClusterModel M}.

Lemma add_axis_run (l : loc) (binf : BinStrategy) (w : World M) b :
  bins_heap w !! l = Some b ->
  add_axis l (Some binf) w
  = (Ok tt, with_bins l (mkBins (default_binf b) (bin_functions b ++ [binf])) w).
Proof.
  intros Hb. unfold add_axis, bind, read_bins, ret, write_bins, with_bins.
  now rewrite Hb.
Qed.

Lemma add_axes_run (l : loc) (binfs : list BinStrategy) :
  forall (w : World M) b,
    bins_heap w !! l = Some b ->
    add_axes l binfs w
    = (Ok tt, with_bins l (mkBins (default_binf b) (bin_functions b ++ binfs)) w).
Proof.
  induction binfs as [|binf binfs IH]; intros w b Hb; simpl.
  - unfold ret, with_bins. rewrite app_nil_r. destruct b as [c fs]. simpl.
    rewrite insert_id by assumption. now destruct w.
  - unfold bind. rewrite (add_axis_run l binf w b Hb).
    rewrite (IH _ (mkBins (default_binf b) (bin_functions b ++ [binf]))).
    + unfold with_bins. simpl. rewrite insert_insert_eq.
      now rewrite <- app_assoc.
    + unfold with_bins. simpl. apply lookup_insert_eq.
Qed.

Lemma coarse_grain_unconfigured (self : CGCluster) X (w : World M) b :
  bins_heap w !! bins self = Some b -> bin_functions b = [] ->
  coarse_grain self X w
  = (grain (replicate (n_features X) fit_uniform_default_binf) X,
     with_bins (bins self)
       (mkBins (default_binf b) (replicate (n_features X) fit_uniform_default_binf))
       (mkWorld (bins_heap w) (model_heap w) (stdout w ++ [notice]))).
Proof.
  intros Hb Hnil.
  unfold coarse_grain, fit_uniform_coarse_grain, get_num_axes, print,
    Bins_value_to_id, Bins_id_to_bin_center, bind, read_bins, lift, ret.
  rewrite Hb, Hnil. simpl.
  rewrite (add_axes_run _ _ _ b) by (simpl; assumption).
  rewrite Hnil. unfold with_bins, grain. simpl.
  rewrite lookup_insert_eq.
  destruct (per_axis _ _ _value_to_id _ X) as [ids|e]; simpl; [|reflexivity].
  rewrite lookup_insert_eq.
  destruct (per_axis _ _ _id_to_bin_center _ (unique ids)); reflexivity.
Qed.

Lemma coarse_grain_ambiguous (self : CGCluster) X (w : World M) b :
  bins_heap w !! bins self = Some b ->
  0 < length (bin_functions b) -> length (bin_functions b) < n_features X ->
  coarse_grain self X w
  = (Raise (AmbiguousCGFunction (length (bin_functions b)) (n_features X)), w).
Proof.
  intros Hb Hpos Hlt.
  unfold coarse_grain, get_num_axes, bind, read_bins, ret, raise.
  rewrite Hb.
  destruct (Nat.eqb_spec (length (bin_functions b)) 0) as [|_]; [lia|].
  destruct (Nat.ltb_spec (length (bin_functions b)) (n_features X)); [|lia].
  reflexivity.
Qed.

Lemma coarse_grain_configured (self : CGCluster) X (w : World M) b :
  bins_heap w !! bins self = Some b ->
  0 < length (bin_functions b) -> n_features X <= length (bin_functions b) ->
  coarse_grain self X w = (grain (bin_functions b) X, w).
Proof.
  intros Hb Hpos Hle.
  unfold coarse_grain, get_num_axes, Bins_value_to_id, Bins_id_to_bin_center,
    bind, read_bins, lift, ret, grain.
  rewrite Hb.
  destruct (Nat.eqb_spec (length (bin_functions b)) 0) as [|_]; [lia|].
  destruct (Nat.ltb_spec (length (bin_functions b)) (n_features X)); [lia|].
  rewrite Hb.
  destruct (per_axis _ _ _value_to_id _ X) as [ids|e]; simpl; [|reflexivity].
  rewrite Hb.
  destruct (per_axis _ _ _id_to_bin_center _ (unique ids)); reflexivity.
Qed.

Lemma coarse_grain_no_bins (self : CGCluster) X (w : World M) :
  bins_heap w !! bins self = None ->
  coarse_grain self X w = (Raise SystemError, w).
Proof.
  intros Hb. unfold coarse_grain, bind, get_num_axes, bind, read_bins.
  now rewrite Hb.
Qed.

End Running.

(** ** coarse_grain: how many rows come back *)

Section RowCount.

Context {M : Type} `{ClusterModel M}.

Lemma grain_rows (bfs : list BinStrategy) (X out : ndarray Q) :
  well_shaped X -> grain bfs X = Ok out ->
  exists ids,
    Forall2 (fun r y => row_apply _value_to_id bfs r = Ok y) (rows X) (rows ids)
    /\ n_samples out = length (remove_dups (rows ids)).
Proof.
  intros Hws. unfold grain.
  destruct (per_axis 0%Q 0%Z _value_to_id bfs X) as [ids|e] eqn:Hids;
    simpl; [|discriminate].
  intros Hout. exists ids. split.
  - now destruct (per_axis_rows _ _ _ _ _ _ Hws Hids) as (_ & _ & Hrows).
  - apply per_axis_n_samples in Hout. rewrite Hout. apply unique_n_samples.
Qed.

Lemma grain_row_count (bfs : list BinStrategy) (X out : ndarray Q) :
  well_shaped X -> grain bfs X = Ok out ->
  n_samples out <= n_samples X
  /\ (n_samples out = n_samples X <->
      forall i j r1 r2,
        rows X !! i = Some r1 -> rows X !! j = Some r2 ->
        row_apply _value_to_id bfs r1 = row_apply _value_to_id bfs r2 ->
        i = j).
Proof.
  intros Hws Hout.
  destruct (grain_rows bfs X out Hws Hout) as (ids & Hrows & Hn).
  pose proof (Forall2_length _ _ _ Hrows) as Hlen.
  pose proof (remove_dups_length_le (rows ids)) as Hle.
  unfold n_samples in *. split; [lia|].
  rewrite Hn, Hlen, remove_dups_length_eq, NoDup_alt. split.
  - intros Hinj i j r1 r2 Hi Hj Heq.
    destruct (Forall2_lookup_l _ _ _ _ _ Hrows Hi) as (y1 & Hy1 & Ha1).
    destruct (Forall2_lookup_l _ _ _ _ _ Hrows Hj) as (y2 & Hy2 & Ha2).
    rewrite Ha1, Ha2 in Heq. injection Heq as <-.
    apply (Hinj i j y1 Hy1 Hy2).
  - intros Hinj i j y Hi Hj.
    destruct (Forall2_lookup_r _ _ _ _ _ Hrows Hi) as (r1 & Hr1 & Ha1).
    destruct (Forall2_lookup_r _ _ _ _ _ Hrows Hj) as (r2 & Hr2 & Ha2).
    apply (Hinj i j r1 r2 Hr1 Hr2). now rewrite Ha1, Ha2.
Qed.

(** Whenever [coarse_grain] returns, it returns what [grain] makes of the
    strategies that the [Bins] object holds afterwards. *)
Lemma coarse_grain_returns (self : CGCluster) X (w w' : World M) out :
  coarse_grain self X w = (Ok out, w') ->
  exists b, bins_heap w' !! bins self = Some b
    /\ grain (bin_functions b) X = Ok out
    /\ model_heap w' = model_heap w.
Proof.
  intros Hrun.
  destruct (bins_heap w !! bins self) as [b|] eqn:Hb.
  2:{ rewrite coarse_grain_no_bins in Hrun by assumption. discriminate. }
  destruct (bin_functions b) as [|bf bfs] eqn:Hfs.
  - rewrite (coarse_grain_unconfigured self X w b Hb Hfs) in Hrun.
    injection Hrun as Hg <-. eexists. split; [apply lookup_insert_eq|].
    simpl. split; [assumption|reflexivity].
  - destruct (decide (length (bin_functions b) < n_features X)) as [Hlt|Hge].
    + rewrite (coarse_grain_ambiguous self X w b Hb) in Hrun;
        [discriminate | rewrite Hfs; simpl; lia | assumption].
    + rewrite (coarse_grain_configured self X w b Hb) in Hrun;
        [| rewrite Hfs; simpl; lia | lia].
      injection Hrun as Hg <-. exists b. auto.
Qed.

(** C5.  When [coarse_grain] accepts [X], the matrix it returns has at
    most as many rows as [X], and exactly as many if and only if no two
    rows of [X] (at different positions) get the same row of bin ids from
    the strategies in force. *)
Theorem coarse_grain_row_count (self : CGCluster) X (w w' : World M) out :
  well_shaped X ->
  coarse_grain self X w = (Ok out, w') ->
  exists b, bins_heap w' !! bins self = Some b
    /\ n_samples out <= n_samples X
    /\ (n_samples out = n_samples X <->
        forall i j r1 r2,
          rows X !! i = Some r1 -> rows X !! j = Some r2 ->
          row_apply _value_to_id (bin_functions b) r1
          = row_apply _value_to_id (bin_functions b) r2 ->
          i = j).
Proof.
  intros Hws Hrun.
  destruct (coarse_grain_returns self X w w' out Hrun) as (b & Hb & Hg & _).
  exists b. split; [assumption|].
  apply grain_row_count; assumption.
Qed.

End RowCount.

(** ** coarse_grain: no axis configured, or too few *)

Section Configuration.

Context {M : Type} `{ClusterModel M}.

Lemma grain_total (bfs : list BinStrategy) (X : ndarray Q) :
  n_features X = length bfs -> rows X <> [] ->
  (forall bf, bf ∈ bfs -> forall x, exists y, _value_to_id bf x = Ok y) ->
  exists out, grain bfs X = Ok out.
Proof.
  intros Hn Hne Hf. unfold grain.
  destruct (per_axis_total 0%Q _value_to_id 0%Z bfs X Hn Hne Hf) as [ids Hids].
  rewrite Hids. simpl.
  apply per_axis_total.
  - simpl. apply per_axis_n_features in Hids. lia.
  - apply unique_rows_nonempty.
    apply per_axis_n_samples in Hids. unfold n_samples in Hids.
    intros Hnil. rewrite Hnil in Hids. destruct (rows X); [done|discriminate].
  - intros bf _ x. destruct bf; simpl; eauto.
Qed.

Lemma uniform_value_to_id_total n bf :
  bf ∈ replicate n fit_uniform_default_binf ->
  forall x, exists y, _value_to_id bf x = Ok y.
Proof.
  intros Hin x. apply elem_of_replicate in Hin as [-> _].
  simpl. unfold Modulo._value_to_id. simpl. eauto.
Qed.


End Configuration.

Lemma sample_X_well_shaped : well_shaped sample_X.
Proof. unfold well_shaped, sample_X. simpl. repeat constructor. Qed.

Lemma coarse_grain_row_count_witness :
  exists out w',
    well_shaped sample_X
    /\ coarse_grain sample_cg sample_X world_no_axes = (Ok out, w')
    /\ exists b, bins_heap w' !! bins sample_cg = Some b
      /\ n_samples out <= n_samples sample_X
      /\ (n_samples out = n_samples sample_X <->
          forall i j r1 r2,
            rows sample_X !! i = Some r1 -> rows sample_X !! j = Some r2 ->
            row_apply _value_to_id (bin_functions b) r1
            = row_apply _value_to_id (bin_functions b) r2 ->
            i = j).
Proof.
  eexists _, _. split; [apply sample_X_well_shaped|].
  split; [vm_compute; reflexivity|].
  apply (coarse_grain_row_count sample_cg sample_X world_no_axes);
    [apply sample_X_well_shaped | vm_compute; reflexivity].
Defined.


(** ** fit_uniform_coarse_grain *)

Section Uniform.

Context {M : Type} `{ClusterModel M}.

(** The strategies are added after those already there. *)
Lemma fit_uniform_coarse_grain_appends (self : CGCluster) n binf (w : World M) b :
  bins_heap w !! bins self = Some b ->
  fit_uniform_coarse_grain self n binf w
  = (Ok tt,
     with_bins (bins self)
       (mkBins (default_binf b)
          (bin_functions b ++ replicate n (default fit_uniform_default_binf binf)))
       w).
Proof. intros Hb. unfold fit_uniform_coarse_grain. now apply add_axes_run. Qed.

Lemma fit_uniform_coarse_grain_num_axes (self : CGCluster) n binf (w w' : World M) b :
  bins_heap w !! bins self = Some b ->
  fit_uniform_coarse_grain self n binf w = (Ok tt, w') ->
  get_num_axes (bins self) w' = (Ok (length (bin_functions b) + n), w').
Proof.
  intros Hb Hrun. rewrite (fit_uniform_coarse_grain_appends _ _ _ _ b Hb) in Hrun.
  injection Hrun as <-. unfold get_num_axes, bind, read_bins, ret, with_bins. simpl.
  rewrite lookup_insert_eq. simpl. now rewrite length_app, length_replicate.
Qed.

End Uniform.

(** C7 at the failing input.  With one strategy already configured,
    [fit_uniform_coarse_grain(2)] leaves three strategies: the old one
    followed by two copies of [ModuloBins(100)]. *)
Theorem fit_uniform_coarse_grain_keeps_old_axes :
  exists w',
    fit_uniform_coarse_grain sample_cg 2 None world_one_axis = (Ok tt, w')
    /\ get_num_axes (bins sample_cg) w' = (Ok 3, w')
    /\ get_binf (bins sample_cg) 0 w' = (Ok (BModulo (mkModuloBins 25 0)), w').
Proof.
  eexists. split; [vm_compute; reflexivity|].
  split; vm_compute; reflexivity.
Qed.

(** ** The models: who is fitted on what *)

Section Models.

Context {M : Type} `{ClusterModel M}.

Lemma coarse_grain_model_heap (self : CGCluster) X (w : World M) :
  model_heap (snd (coarse_grain self X w)) = model_heap w.
Proof.
  destruct (bins_heap w !! bins self) as [b|] eqn:Hb.
  2:{ now rewrite coarse_grain_no_bins. }
  destruct (bin_functions b) as [|bf bfs] eqn:Hfs.
  - now rewrite (coarse_grain_unconfigured self X w b Hb Hfs).
  - destruct (decide (length (bin_functions b) < n_features X)) as [Hlt|Hge].
    + rewrite (coarse_grain_ambiguous self X w b Hb);
        [reflexivity | rewrite Hfs; simpl; lia | assumption].
    + rewrite (coarse_grain_configured self X w b Hb);
        [reflexivity | rewrite Hfs; simpl; lia | lia].
Qed.

Lemma call_fit_run (l : loc) X (w : World M) m m' :
  model_heap w !! l = Some m -> model_fit m X = Ok m' ->
  call_fit l X w = (Ok tt, with_model l m' w).
Proof.
  intros Hm Hfit. unfold call_fit, bind, read_model, lift, write_model, with_model.
  now rewrite Hm, Hfit.
Qed.

(** A call of [fit] touches the object it is called on and nothing else. *)
Lemma call_fit_frame (l : loc) X (w : World M) :
  bins_heap (snd (call_fit l X w)) = bins_heap w
  /\ forall l', l' <> l ->
       model_heap (snd (call_fit l X w)) !! l' = model_heap w !! l'.
Proof.
  unfold call_fit, bind, read_model, lift, write_model.
  destruct (model_heap w !! l) as [m|]; simpl; [|auto].
  destruct (model_fit m X) as [m'|e]; simpl; [|auto].
  split; [reflexivity|]. intros l' Hne. now apply lookup_insert_ne.
Qed.

Lemma call_set_params_frame (l : loc) (g : M -> M) (w : World M) :
  forall l', l' <> l ->
    model_heap (snd (call_set_params l g w)) !! l' = model_heap w !! l'.
Proof.
  unfold call_set_params, bind, read_model, write_model.
  destruct (model_heap w !! l) as [m|]; simpl; [|auto].
  intros l' Hne. now apply lookup_insert_ne.
Qed.

Lemma get_cluster_centers_frame (l : loc) (w : World M) :
  snd (get_cluster_centers_ l w) = w.
Proof.
  unfold get_cluster_centers_, bind, read_model, lift.
  destruct (model_heap w !! l) as [m|]; simpl; [|reflexivity].
  destruct (cluster_centers_ m); reflexivity.
Qed.

Lemma call_predict_frame (l : loc) X (w : World M) :
  snd (call_predict l X w) = w.
Proof.
  unfold call_predict, bind, read_model, lift.
  destruct (model_heap w !! l) as [m|]; simpl; [|reflexivity].
  destruct (model_predict m X); reflexivity.
Qed.

Lemma call_fit_predict_run (l : loc) X (w : World M) m m' labels :
  model_heap w !! l = Some m -> model_fit_predict m X = Ok (m', labels) ->
  call_fit_predict l X w = (Ok labels, with_model l m' w).
Proof.
  intros Hm Hfp.
  unfold call_fit_predict, bind, read_model, lift, write_model, ret, with_model.
  now rewrite Hm, Hfp.
Qed.

Lemma snd_bind {A B} (m : PyM M A) (k : A -> PyM M B) (w : World M) :
  snd (bind m k w)
  = match fst (m w) with
    | Ok a => snd (k a (snd (m w)))
    | Raise _ => snd (m w)
    end.
Proof. unfold bind. destruct (m w) as [[a|e] w']; reflexivity. Qed.

Lemma CGCluster_fit_frame (self : CGCluster) X (w : World M) :
  forall l, l <> coarse_model self ->
    model_heap (snd (CGCluster_fit self X w)) !! l = model_heap w !! l.
Proof.
  intros l Hne. unfold CGCluster_fit. rewrite snd_bind.
  pose proof (coarse_grain_model_heap self X w) as Hcg.
  destruct (fst (coarse_grain self X w)) as [centers|e].
  - destruct (call_fit_frame (coarse_model self) centers
                (snd (coarse_grain self X w))) as [_ Hfr].
    rewrite (Hfr l Hne). now rewrite Hcg.
  - now rewrite Hcg.
Qed.

Lemma KMCalico_fit_frame (self : KMCalico) X (w : World M) :
  forall l, l <> coarse_model (as_CGCluster self) -> l <> fine_model self ->
    model_heap (snd (KMCalico_fit self X w)) !! l = model_heap w !! l.
Proof.
  intros l Hc Hf. unfold KMCalico_fit. rewrite snd_bind.
  pose proof (coarse_grain_model_heap (as_CGCluster self) X w) as Hcg.
  destruct (fst (coarse_grain (as_CGCluster self) X w)) as [centers|e];
    [|now rewrite Hcg].
  set (w1 := snd (coarse_grain (as_CGCluster self) X w)) in *.
  rewrite snd_bind.
  destruct (call_fit_frame (coarse_model (as_CGCluster self)) centers w1)
    as [_ Hfr1].
  set (w2 := snd (call_fit (coarse_model (as_CGCluster self)) centers w1)) in *.
  destruct (fst (call_fit _ centers w1)); [|now rewrite Hfr1, Hcg].
  rewrite snd_bind.
  rewrite get_cluster_centers_frame.
  destruct (fst (get_cluster_centers_ _ w2)) as [cc|e]; [|now rewrite Hfr1, Hcg].
  rewrite snd_bind.
  pose proof (call_set_params_frame (fine_model self) (set_params_init cc) w2 l Hf)
    as Hfr3.
  set (w3 := snd (call_set_params (fine_model self) (set_params_init cc) w2)) in *.
  destruct (fst (call_set_params _ _ w2)); [|now rewrite Hfr3, Hfr1, Hcg].
  destruct (call_fit_frame (fine_model self) X w3) as [_ Hfr4].
  now rewrite (Hfr4 l Hf), Hfr3, Hfr1, Hcg.
Qed.

(** C8.  [KMCalico.fit(X)]: the coarse model is fitted on the matrix that
    [coarse_grain(X)] returns; the fine model gets as [init] the centres
    of the coarse model just fitted, and is then fitted on [X] itself. *)
Theorem KMCalico_fit_stages (self : KMCalico) X (w w1 : World M)
    centers mc mc' cc mf mf' :
  coarse_model (as_CGCluster self) <> fine_model self ->
  coarse_grain (as_CGCluster self) X w = (Ok centers, w1) ->
  model_heap w !! coarse_model (as_CGCluster self) = Some mc ->
  model_fit mc centers = Ok mc' ->
  cluster_centers_ mc' = Ok cc ->
  model_heap w !! fine_model self = Some mf ->
  model_fit (set_params_init cc mf) X = Ok mf' ->
  KMCalico_fit self X w
  = (Ok tt,
     with_model (fine_model self) mf'
       (with_model (coarse_model (as_CGCluster self)) mc' w1)).
Proof.
  intros Hne Hcg Hmc Hfit Hcc Hmf Hfit2.
  pose proof (coarse_grain_model_heap (as_CGCluster self) X w) as Hmh.
  rewrite Hcg in Hmh. simpl in Hmh.
  unfold KMCalico_fit. unfold bind at 1. rewrite Hcg.
  unfold bind at 1.
  rewrite (call_fit_run _ centers w1 mc mc') by (rewrite ?Hmh; assumption).
  unfold bind at 1, get_cluster_centers_, bind at 1, read_model, lift.
  unfold with_model at 1. simpl. rewrite lookup_insert_eq, Hcc.
  unfold bind at 1, call_set_params, bind at 1, read_model, write_model. simpl.
  rewrite lookup_insert_ne by assumption. rewrite Hmh, Hmf.
  erewrite call_fit_run; [| simpl; apply lookup_insert_eq | exact Hfit2].
  unfold with_model. simpl. now rewrite insert_insert_eq.
Qed.

End Models.

(** ** The constructors: what is shared and what is copied *)

Section Construction.

Context {M : Type} `{ClusterModel M}.

Lemma fresh_not_in_heap {V} (h : gmap loc V) (l : loc) :
  is_Some (h !! l) -> l <> fresh (dom h).
Proof.
  intros Hl Heq. apply elem_of_dom in Hl. rewrite Heq in Hl.
  now apply is_fresh in Hl.
Qed.

Lemma CGCluster_init_inv (g : Globals) bo mo (w w' : World M) self :
  CGCluster_init g bo mo w = (Ok self, w') ->
  bins self = default (CGCluster_default_bins g) bo
  /\ model self = default (CGCluster_default_model g) mo
  /\ model self <> coarse_model self.
Proof.
  unfold CGCluster_init, deepcopy, bind, read_model, new_model, ret.
  destruct (model_heap w !! default (CGCluster_default_model g) mo) as [m|] eqn:Hm;
    [|discriminate].
  intros [= <- <-]. simpl. repeat split.
  apply fresh_not_in_heap. eauto.
Qed.

Lemma KMCalico_init_inv (g : Globals) bo mo (w w' : World M) self :
  KMCalico_init g bo mo w = (Ok self, w') ->
  bins (as_CGCluster self) = default (KMCalico_default_bins g) bo
  /\ model (as_CGCluster self) = default (KMCalico_default_model g) mo
  /\ model (as_CGCluster self) <> coarse_model (as_CGCluster self)
  /\ model (as_CGCluster self) <> fine_model self
  /\ coarse_model (as_CGCluster self) <> fine_model self.
Proof.
  unfold KMCalico_init, deepcopy, call_set_params, bind, read_model, new_model,
    write_model, ret.
  destruct (model_heap w !! default (KMCalico_default_model g) mo) as [m|] eqn:Hm;
    [|discriminate].
  simpl. rewrite lookup_insert_eq. simpl.
  assert (Hne : default (KMCalico_default_model g) mo <> fresh (dom (model_heap w)))
    by (apply fresh_not_in_heap; eauto).
  rewrite lookup_insert_ne by (intros E; apply Hne; now rewrite E).
  rewrite lookup_insert_ne by (intros E; apply Hne; now rewrite E).
  rewrite Hm. simpl. rewrite lookup_insert_eq. simpl.
  intros [= <- <-]. simpl. repeat split; try assumption.
  - apply fresh_not_in_heap. rewrite !lookup_insert_ne
      by (intros E; apply Hne; now rewrite E). eauto.
  - apply fresh_not_in_heap. rewrite insert_insert_eq, lookup_insert_eq. eauto.
Qed.

Lemma import_module_inv (w w' : World M) g :
  import_module w = (Ok g, w') ->
  CGCluster_default_bins g <> KMCalico_default_bins g.
Proof.
  unfold import_module, Bins_init, bind, new_bins, new_model, ret. simpl.
  intros [= <- <-]. simpl.
  apply fresh_not_in_heap. rewrite lookup_insert_eq. eauto.
Qed.

Lemma add_axis_visible (l : loc) binf (w : World M) b :
  bins_heap w !! l = Some b ->
  exists w', add_axis l (Some binf) w = (Ok tt, w')
    /\ get_binf l (length (bin_functions b)) w' = (Ok binf, w')
    /\ get_num_axes l w' = (Ok (S (length (bin_functions b))), w').
Proof.
  intros Hb. rewrite (add_axis_run l binf w b Hb). eexists. split; [reflexivity|].
  unfold get_binf, get_num_axes, bind, read_bins, ret, with_bins. simpl.
  rewrite lookup_insert_eq. simpl. split.
  - rewrite lookup_app_r by lia. now rewrite Nat.sub_diag.
  - rewrite length_app. simpl. do 2 f_equal. lia.
Qed.

Lemma auto_fill_visible (self : CGCluster) X (w : World M) b :
  rows X <> [] ->
  bins_heap w !! bins self = Some b -> bin_functions b = [] ->
  exists out w', coarse_grain self X w = (Ok out, w')
    /\ get_num_axes (bins self) w' = (Ok (n_features X), w').
Proof.
  intros Hne Hb Hnil.
  rewrite (coarse_grain_unconfigured self X w b Hb Hnil).
  destruct (grain_total (replicate (n_features X) fit_uniform_default_binf) X)
    as [out Hout].
  - now rewrite length_replicate.
  - assumption.
  - apply uniform_value_to_id_total.
  - rewrite Hout. eexists out, _. split; [reflexivity|].
    unfold get_num_axes, bind, read_bins, ret, with_bins. simpl.
    rewrite lookup_insert_eq. simpl. now rewrite length_replicate.
Qed.

(** C10 (as the code has it).  Each of the two constructors has a default
    [Bins] object of its own, made once when the module is loaded.  Two
    [CGCluster] built without a [bins] argument hold the same [Bins]
    object, and so do two [KMCalico]; a strategy added through one, or
    the strategies that the auto-fill of [coarse_grain] adds, are seen
    through the other.  The default of [CGCluster] and the default of
    [KMCalico] are different objects. *)
Theorem default_bins_shared_per_class (g : Globals) (w0 wg : World M)
    a b ka kb ma mb mka mkb (wa wa' wb wb' wka wka' wkb wkb' : World M) :
  import_module w0 = (Ok g, wg) ->
  CGCluster_init g None ma wa = (Ok a, wa') ->
  CGCluster_init g None mb wb = (Ok b, wb') ->
  KMCalico_init g None mka wka = (Ok ka, wka') ->
  KMCalico_init g None mkb wkb = (Ok kb, wkb') ->
  bins a = bins b
  /\ bins (as_CGCluster ka) = bins (as_CGCluster kb)
  /\ bins a <> bins (as_CGCluster ka)
  /\ (forall (w : World M) binf bo,
        bins_heap w !! bins a = Some bo ->
        exists w', add_axis (bins a) (Some binf) w = (Ok tt, w')
          /\ get_binf (bins b) (length (bin_functions bo)) w' = (Ok binf, w'))
  /\ (forall (w : World M) X bo,
        rows X <> [] ->
        bins_heap w !! bins a = Some bo -> bin_functions bo = [] ->
        exists out w', coarse_grain a X w = (Ok out, w')
          /\ get_num_axes (bins b) w' = (Ok (n_features X), w'))
  /\ (forall (w : World M) X bo,
        rows X <> [] ->
        bins_heap w !! bins (as_CGCluster ka) = Some bo -> bin_functions bo = [] ->
        exists out w', coarse_grain (as_CGCluster ka) X w = (Ok out, w')
          /\ get_num_axes (bins (as_CGCluster kb)) w' = (Ok (n_features X), w')).
Proof.
  intros Himp Ha Hb Hka Hkb.
  apply CGCluster_init_inv in Ha as (Ha & _).
  apply CGCluster_init_inv in Hb as (Hb & _).
  apply KMCalico_init_inv in Hka as (Hka & _).
  apply KMCalico_init_inv in Hkb as (Hkb & _).
  apply import_module_inv in Himp. simpl in *.
  assert (Hab : bins a = bins b) by congruence.
  assert (Hk : bins (as_CGCluster ka) = bins (as_CGCluster kb)) by congruence.
  split; [assumption|]. split; [assumption|]. split; [congruence|].
  rewrite <- Hab, <- Hk. split; [|split].
  - intros w binf bo Hbo.
    destruct (add_axis_visible (bins a) binf w bo Hbo) as (w' & Hadd & Hget & _).
    eauto.
  - intros w X bo. apply auto_fill_visible.
  - intros w X bo. apply auto_fill_visible.
Qed.

End Construction.

(** ** The template model *)

Section Template.

Context {M : Type} `{ClusterModel M}.

(** C9 (as the code has it).  For wrappers made by the constructors:
    [fit] leaves every model object other than [coarse_model] (and, for
    [KMCalico], [fine_model]) as it was, the template among them;
    [predict] with mode ["coarse"] changes no model object; [predict]
    with mode ["default"] calls [fit_predict] on the template itself,
    which afterwards holds the state that this call produced. *)
Theorem template_model_frame (g : Globals) bo mo kbo kmo
    (wi wi' wk wk' : World M) (self : CGCluster) (km : KMCalico)
    X (w : World M) m m' labels :
  CGCluster_init g bo mo wi = (Ok self, wi') ->
  KMCalico_init g kbo kmo wk = (Ok km, wk') ->
  model_heap w !! model self = Some m ->
  model_fit_predict m X = Ok (m', labels) ->
  model_heap (snd (CGCluster_fit self X w)) !! model self
    = model_heap w !! model self
  /\ (forall l, l <> coarse_model self ->
        model_heap (snd (CGCluster_fit self X w)) !! l = model_heap w !! l)
  /\ model_heap (snd (KMCalico_fit km X w)) !! model (as_CGCluster km)
     = model_heap w !! model (as_CGCluster km)
  /\ (forall l, l <> coarse_model (as_CGCluster km) -> l <> fine_model km ->
        model_heap (snd (KMCalico_fit km X w)) !! l = model_heap w !! l)
  /\ snd (CGCluster_predict self X "coarse" w) = w
  /\ CGCluster_predict self X "default" w
     = (Ok labels, with_model (model self) m' w).
Proof.
  intros Hself Hkm Hm Hfp.
  apply CGCluster_init_inv in Hself as (_ & _ & Hne).
  apply KMCalico_init_inv in Hkm as (_ & _ & Hk1 & Hk2 & _).
  split; [now apply CGCluster_fit_frame|].
  split; [apply CGCluster_fit_frame|].
  split; [now apply KMCalico_fit_frame|].
  split; [apply KMCalico_fit_frame|].
  split.
  - unfold CGCluster_predict. simpl. apply call_predict_frame.
  - unfold CGCluster_predict. simpl.
    apply (call_fit_predict_run _ X w m m' labels Hm Hfp).
Qed.

End Template.

Lemma import_module_loaded :
  import_module empty_world = (Ok loaded_globals, loaded_world).
Proof. vm_compute. reflexivity. Qed.

Lemma KMCalico_fit_stages_witness :
  exists centers w1 mc mc' cc mf mf',
    coarse_model (as_CGCluster sample_km) <> fine_model sample_km
    /\ coarse_grain (as_CGCluster sample_km) sample_X world_km = (Ok centers, w1)
    /\ model_heap world_km !! coarse_model (as_CGCluster sample_km) = Some mc
    /\ model_fit mc centers = Ok mc'
    /\ cluster_centers_ mc' = Ok cc
    /\ model_heap world_km !! fine_model sample_km = Some mf
    /\ model_fit (set_params_init cc mf) sample_X = Ok mf'
    /\ KMCalico_fit sample_km sample_X world_km
       = (Ok tt,
          with_model (fine_model sample_km) mf'
            (with_model (coarse_model (as_CGCluster sample_km)) mc' w1)).
Proof.
  eexists _, _, _, _, _, _, _.
  split; [discriminate|].
  split; [vm_compute; reflexivity|].
  split; [vm_compute; reflexivity|].
  split; [vm_compute; reflexivity|].
  split; [vm_compute; reflexivity|].
  split; [vm_compute; reflexivity|].
  split; [vm_compute; reflexivity|].
  eapply (KMCalico_fit_stages sample_km sample_X world_km);
    [discriminate | vm_compute; reflexivity | vm_compute; reflexivity
    | vm_compute; reflexivity | vm_compute; reflexivity
    | vm_compute; reflexivity | vm_compute; reflexivity].
Defined.

Lemma template_model_frame_witness :
  exists self wi' km wk' m m' labels,
    CGCluster_init loaded_globals None None loaded_world = (Ok self, wi')
    /\ KMCalico_init loaded_globals None None loaded_world = (Ok km, wk')
    /\ model_heap wk' !! model self = Some m
    /\ model_fit_predict m sample_X = Ok (m', labels)
    /\ model_heap (snd (CGCluster_fit self sample_X wk')) !! model self
       = model_heap wk' !! model self
    /\ (forall l, l <> coarse_model self ->
          model_heap (snd (CGCluster_fit self sample_X wk')) !! l
          = model_heap wk' !! l)
    /\ model_heap (snd (KMCalico_fit km sample_X wk')) !! model (as_CGCluster km)
       = model_heap wk' !! model (as_CGCluster km)
    /\ (forall l, l <> coarse_model (as_CGCluster km) -> l <> fine_model km ->
          model_heap (snd (KMCalico_fit km sample_X wk')) !! l
          = model_heap wk' !! l)
    /\ snd (CGCluster_predict self sample_X "coarse" wk') = wk'
    /\ CGCluster_predict self sample_X "default" wk'
       = (Ok labels, with_model (model self) m' wk').
Proof.
  eexists _, _, _, _, _, _, _.
  split; [vm_compute; reflexivity|].
  split; [vm_compute; reflexivity|].
  split; [vm_compute; reflexivity|].
  split; [vm_compute; reflexivity|].
  eapply (template_model_frame loaded_globals None None None None
            loaded_world _ loaded_world _);
    vm_compute; reflexivity.
Defined.

(** C9 as the spec words it fails: [predict] with mode ["default"] leaves
    the caller's model fitted on [X]. *)
Lemma predict_default_refits_template :
  exists l w0 self w1 labels w2,
    new_model KMeans_new loaded_world = (Ok l, w0)
    /\ CGCluster_init loaded_globals None (Some l) w0 = (Ok self, w1)
    /\ model self = l
    /\ CGCluster_predict self sample_X "default" w1 = (Ok labels, w2)
    /\ model_heap w1 !! l = Some (mkRecorder None None None)
    /\ model_heap w2 !! l = Some (mkRecorder None None (Some sample_X))
    /\ model_heap w2 !! l <> model_heap w1 !! l.
Proof.
  eexists _, _, _, _, _, _.
  split; [vm_compute; reflexivity|].
  split; [vm_compute; reflexivity|].
  split; [reflexivity|].
  split; [vm_compute; reflexivity|].
  split; [vm_compute; reflexivity|].
  split; [vm_compute; reflexivity|].
  vm_compute. discriminate.
Qed.

Lemma default_bins_shared_per_class_witness :
  exists a b ka kb wkb',
    import_module empty_world = (Ok loaded_globals, loaded_world)
    /\ CGCluster_init loaded_globals None None loaded_world = (Ok a, world_a)
    /\ CGCluster_init loaded_globals None None world_a = (Ok b, world_b)
    /\ KMCalico_init loaded_globals None None world_b = (Ok ka, world_ka)
    /\ KMCalico_init loaded_globals None None world_ka = (Ok kb, wkb')
    /\ bins a = bins b
    /\ bins (as_CGCluster ka) = bins (as_CGCluster kb)
    /\ bins a <> bins (as_CGCluster ka)
    /\ (forall (w : World Recorder) binf bo,
          bins_heap w !! bins a = Some bo ->
          exists w', add_axis (bins a) (Some binf) w = (Ok tt, w')
            /\ get_binf (bins b) (length (bin_functions bo)) w' = (Ok binf, w'))
    /\ (forall (w : World Recorder) X bo,
          rows X <> [] ->
          bins_heap w !! bins a = Some bo -> bin_functions bo = [] ->
          exists out w', coarse_grain a X w = (Ok out, w')
            /\ get_num_axes (bins b) w' = (Ok (n_features X), w'))
    /\ (forall (w : World Recorder) X bo,
          rows X <> [] ->
          bins_heap w !! bins (as_CGCluster ka) = Some bo -> bin_functions bo = [] ->
          exists out w', coarse_grain (as_CGCluster ka) X w = (Ok out, w')
            /\ get_num_axes (bins (as_CGCluster kb)) w' = (Ok (n_features X), w')).
Proof.
  eexists _, _, _, _, _.
  split; [vm_compute; reflexivity|].
  split; [vm_compute; reflexivity|].
  split; [vm_compute; reflexivity|].
  split; [vm_compute; reflexivity|].
  split; [vm_compute; reflexivity|].
  eapply (default_bins_shared_per_class loaded_globals empty_world loaded_world
            _ _ _ _ None None None None
            loaded_world world_a world_a world_b world_b world_ka world_ka _);
    vm_compute; reflexivity.
Defined.

(** C10 as the spec words it fails: the strategies that the auto-fill adds
    through a default-constructed [CGCluster] are not seen through a
    default-constructed [KMCalico]. *)
Lemma auto_fill_not_seen_across_classes :
  exists a w1 k w2 out w3,
    import_module empty_world = (Ok loaded_globals, loaded_world)
    /\ CGCluster_init loaded_globals None None loaded_world = (Ok a, w1)
    /\ KMCalico_init loaded_globals None None w1 = (Ok k, w2)
    /\ coarse_grain a sample_X w2 = (Ok out, w3)
    /\ get_num_axes (bins a) w3 = (Ok 2, w3)
    /\ get_num_axes (bins (as_CGCluster k)) w3 = (Ok 0, w3)
    /\ bins a <> bins (as_CGCluster k).
Proof.
  eexists _, _, _, _, _, _.
  split; [vm_compute; reflexivity|].
  split; [vm_compute; reflexivity|].
  split; [vm_compute; reflexivity|].
  split; [vm_compute; reflexivity|].
  split; [vm_compute; reflexivity|].
  split; [vm_compute; reflexivity|].
  vm_compute. discriminate.
Qed.

(** * Further properties of the strategies *)

Local Open Scope Q_scope.

Lemma int_opp (x : Q) : Py.int (- x) = (- Py.int x)%Z.
Proof.
  destruct x as [a b]. unfold Py.int. simpl. apply Z.quot_opp_l. discriminate.
Qed.

Lemma int_comp (x y : Q) : x == y -> Py.int x = Py.int y.
Proof.
  intros Hxy. destruct (Qlt_le_dec x 0) as [Hneg|Hpos].
  - assert (Hx : Py.int x = (- Py.int (- x))%Z) by (rewrite int_opp; lia).
    assert (Hy : Py.int y = (- Py.int (- y))%Z) by (rewrite int_opp; lia).
    rewrite Hx, Hy. rewrite !int_nonneg by lra.
    f_equal. apply Qfloor_comp. now rewrite Hxy.
  - rewrite !int_nonneg by lra. now apply Qfloor_comp.
Qed.




(** ** ModuloBins *)





(** X3.  The ids of a [ModuloBins] are mirrored about [rem]: the value [d] below
    [rem] gets minus the id of the value [d] above it. *)
Theorem ModuloBins_ids_mirrored (self : ModuloBins) (d : Q) :
  mod_ self <> 0%Z ->
  exists i,
    Modulo._value_to_id self (inject_Z (rem_ self) + d) = Ok i
    /\ Modulo._value_to_id self (inject_Z (rem_ self) - d) = Ok (- i)%Z.
Proof.
  intros Hm. unfold Modulo._value_to_id.
  destruct (Z.eqb_spec (mod_ self) 0) as [|_]; [contradiction|].
  eexists. split; [reflexivity|]. f_equal.
  rewrite <- int_opp. apply int_comp.
  field. now apply inject_Z_nonzero.
Qed.

Lemma ModuloBins_ids_mirrored_witness :
  exists i,
    Modulo._value_to_id (mkModuloBins 100 0) (inject_Z 0 + 150) = Ok i
    /\ Modulo._value_to_id (mkModuloBins 100 0) (inject_Z 0 - 150) = Ok (- i)%Z.
Proof. apply ModuloBins_ids_mirrored. discriminate. Defined.

(** ** LinSpaceBins *)














(** ** ArrangeBins *)






(** X11.  An [ArrangeBins] over an empty range ([max <= min], positive step) has
    no bin at all, and [_value_to_id] sends every value to id [0]. *)
Theorem ArrangeBins_empty_range (min max stp : Q) self (v : Q) :
  0 < stp -> max <= min -> ArrangeBins_init min max stp = Ok self ->
  n_bins self = 0%Z /\ LinSpace._value_to_id self v = Ok 0%Z.
Proof.
  intros Hs Hle. unfold ArrangeBins_init.
  assert (E : Qeq_bool stp 0 = false) by (apply Qeq_bool_false; lra).
  rewrite E. intros [= <-]. simpl.
  assert (Hn : Py.arange_len min max stp = 0%Z).
  { unfold Py.arange_len.
    pose proof (Qceiling_lt ((max - min) / stp)) as Hc.
    assert (Hx : max - min == (max - min) / stp * stp) by (field; lra).
    set (x := (max - min) / stp) in *. set (c := Qceiling x) in *.
    assert (Hx0 : x <= 0).
    { destruct (Qlt_le_dec 0 x) as [Hpos|]; [exfalso|assumption].
      assert (0 < stp * x) by (apply Qmult_lt_0_compat; lra). lra. }
    assert (E1 : inject_Z (c - 1) == inject_Z c - 1).
    { unfold Z.sub. rewrite inject_Z_plus. reflexivity. }
    rewrite E1 in Hc.
    assert (Hc0 : (c < 1)%Z).
    { rewrite Zlt_Qlt. change (inject_Z 1) with 1. lra. }
    lia. }
  split; [assumption|].
  unfold LinSpace._value_to_id. simpl. rewrite Hn.
  destruct (Qle_bool v min) eqn:E1; [reflexivity|].
  destruct (Qle_bool v max) eqn:E2; simpl; [|reflexivity].
  apply Qle_bool_false in E1. apply Qle_bool_iff in E2. lra.
Qed.

Lemma ArrangeBins_empty_range_witness :
  exists self,
    0 < 4 /\ 10 <= 10 /\ ArrangeBins_init 10 10 4 = Ok self
    /\ n_bins self = 0%Z /\ LinSpace._value_to_id self 25 = Ok 0%Z.
Proof.
  eexists. split; [reflexivity|]. split; [discriminate|]. split; [reflexivity|].
  apply (ArrangeBins_empty_range 10 10 4); [reflexivity | discriminate | reflexivity].
Defined.

Close Scope Q_scope.

(** * Further properties of the per-axis loop *)

Section PerAxisMore.

Context {A B : Type} (d : A) (f : BinStrategy -> A -> result B).

Lemma per_axis_filled (zero : B) bfs (X : ndarray A) Y :
  per_axis d zero f bfs X = Ok Y ->
  n_features X = length bfs
  /\ n_features Y = n_features X
  /\ filled f bfs (n_features X) (rows X) (n_features X) (rows Y).
Proof.
  unfold per_axis.
  destruct (decide (n_features X = length bfs)) as [Hn|]; [|discriminate].
  intros Hrun. split; [assumption|]. rewrite Hn in Hrun at 1.
  apply (for_each_axis_filled d f bfs X bfs 0 (rows (zeros zero X)) Y).
  - simpl. lia.
  - intros j bf Hj. exact Hj.
  - apply filled_zeros.
  - exact Hrun.
Qed.

Lemma per_axis_well_shaped (zero : B) bfs (X : ndarray A) Y :
  per_axis d zero f bfs X = Ok Y -> well_shaped Y.
Proof.
  intros Hrun. destruct (per_axis_filled zero bfs X Y Hrun) as (_ & HnY & Hlen & Hfill).
  unfold well_shaped. apply Forall_lookup. intros i v Hv.
  assert (Hi : i < length (rows X)) by (rewrite <- Hlen; eapply lookup_lt_Some; eauto).
  apply lookup_lt_is_Some in Hi as [r Hr].
  destruct (Hfill i r v Hr Hv) as [Hl _]. lia.
Qed.

Lemma per_axis_assertion (zero : B) bfs (X : ndarray A) :
  n_features X <> length bfs -> per_axis d zero f bfs X = Raise AssertionError.
Proof.
  intros Hne. unfold per_axis.
  now destruct (decide (n_features X = length bfs)).
Qed.

Lemma per_axis_no_sample (zero : B) bfs (X : ndarray A) :
  n_features X = length bfs -> bfs <> [] -> rows X = [] ->
  per_axis d zero f bfs X = Raise ValueError.
Proof.
  intros Hn Hne Hnil. unfold per_axis.
  destruct (decide (n_features X = length bfs)); [|done].
  destruct bfs as [|bf bfs]; [done|]. rewrite Hn. simpl.
  unfold column. now rewrite Hnil.
Qed.






(** Column [j] of the result depends on column [j] of the input and on
    strategy [j] only. *)
Lemma per_axis_column (zero : B) (dB : B) bfs bfs' (X X' : ndarray A) Y Y' j :
  well_shaped X -> well_shaped X' ->
  per_axis d zero f bfs X = Ok Y ->
  per_axis d zero f bfs' X' = Ok Y' ->
  bfs !! j = bfs' !! j ->
  column d j X = column d j X' ->
  column dB j Y = column dB j Y'.
Proof.
  intros Hws Hws' HY HY' Hbf Hcol.
  destruct (per_axis_filled zero bfs X Y HY) as (Hn & HnY & Hlen & Hfill).
  destruct (per_axis_filled zero bfs' X' Y' HY') as (Hn' & HnY' & Hlen' & Hfill').
  assert (Hrows : length (rows X) = length (rows X')).
  { apply (f_equal length) in Hcol. unfold column in Hcol.
    now rewrite !length_map in Hcol. }
  unfold column. apply list_eq_same_length with (length (rows Y));
    rewrite ?length_map; try lia.
  intros i v v' Hi Hv Hv'.
  rewrite list_lookup_fmap in Hv, Hv'.
  destruct (rows Y !! i) as [y|] eqn:Ey; [|discriminate].
  destruct (rows Y' !! i) as [y'|] eqn:Ey'; [|discriminate].
  simpl in Hv, Hv'. injection Hv as <-. injection Hv' as <-.
  assert (Hix : i < length (rows X)) by (rewrite <- Hlen; eapply lookup_lt_Some; eauto).
  pose proof Hix as Hix'. rewrite Hrows in Hix'.
  apply lookup_lt_is_Some in Hix as [r Hr].
  apply lookup_lt_is_Some in Hix' as [r' Hr'].
  destruct (Hfill i r y Hr Ey) as [Hly Hc].
  destruct (Hfill' i r' y' Hr' Ey') as [Hly' Hc'].
  destruct (bfs !! j) as [bf|] eqn:Ebf.
  - assert (Hj : j < n_features X) by (rewrite Hn; eapply lookup_lt_Some; eauto).
    assert (Hj' : j < n_features X').
    { rewrite Hn'. eapply lookup_lt_Some. symmetry. exact Hbf. }
    unfold well_shaped in Hws, Hws'. rewrite Forall_lookup in Hws, Hws'.
    assert (Hx : j < length r) by (rewrite (Hws i r Hr); lia).
    assert (Hx' : j < length r') by (rewrite (Hws' i r' Hr'); lia).
    apply lookup_lt_is_Some in Hx as [x Hx].
    apply lookup_lt_is_Some in Hx' as [x' Hx'].
    assert (Exx : x = x').
    { apply (f_equal (fun c => c !! i)) in Hcol. unfold column in Hcol.
      rewrite !list_lookup_fmap, Hr, Hr' in Hcol. simpl in Hcol.
      rewrite Hx, Hx' in Hcol. simpl in Hcol. congruence. }
    subst x'.
    destruct (Hc j bf x Hj Ebf Hx) as (b & Hb & ->).
    destruct (Hc' j bf x Hj' (eq_sym Hbf) Hx') as (b' & Hb' & ->).
    simpl. congruence.
  - assert (Hj : length y <= j).
    { apply lookup_ge_None in Ebf. lia. }
    assert (Hj' : length y' <= j).
    { symmetry in Hbf. apply lookup_ge_None in Hbf. lia. }
    apply lookup_ge_None in Hj, Hj'. now rewrite Hj, Hj'.
Qed.

End PerAxisMore.

(** * Further properties of Bins *)

Section BinsMore.

Context {M : Type} `{ClusterModel M}.

Lemma Bins_value_to_id_run (l : loc) X (w : World M) b :
  bins_heap w !! l = Some b ->
  Bins_value_to_id l X w = (per_axis 0%Q 0%Z _value_to_id (bin_functions b) X, w).
Proof. intros Hb. unfold Bins_value_to_id, bind, read_bins, lift. now rewrite Hb. Qed.

Lemma Bins_id_to_bin_start_run (l : loc) ids (w : World M) b :
  bins_heap w !! l = Some b ->
  Bins_id_to_bin_start l ids w
  = (per_axis 0%Z 0%Q _id_to_bin_start (bin_functions b) ids, w).
Proof. intros Hb. unfold Bins_id_to_bin_start, bind, read_bins, lift. now rewrite Hb. Qed.

Lemma Bins_id_to_bin_center_run (l : loc) ids (w : World M) b :
  bins_heap w !! l = Some b ->
  Bins_id_to_bin_center l ids w
  = (per_axis 0%Z 0%Q _id_to_bin_center (bin_functions b) ids, w).
Proof. intros Hb. unfold Bins_id_to_bin_center, bind, read_bins, lift. now rewrite Hb. Qed.

Lemma get_binf_run (l : loc) (w : World M) b axis :
  bins_heap w !! l = Some b ->
  get_binf l axis w
  = (match bin_functions b !! axis with
     | Some binf => Ok binf
     | None => Raise IndexError
     end, w).
Proof.
  intros Hb. unfold get_binf, bind, read_bins, ret, raise. rewrite Hb.
  now destruct (bin_functions b !! axis).
Qed.

(** X12.  [add_axes] puts the new strategies after the old ones, in the order
    given: the old axes keep their index, new strategy [i] becomes axis
    [old count + i], the index after the last one is out of range, and no
    other [Bins] object changes. *)
Theorem add_axes_in_order (l : loc) (binfs : list BinStrategy) (w : World M) b :
  bins_heap w !! l = Some b ->
  exists w',
    add_axes l binfs w = (Ok tt, w')
    /\ get_num_axes l w' = (Ok (length (bin_functions b) + length binfs), w')
    /\ (forall i binf, bin_functions b !! i = Some binf ->
          get_binf l i w' = (Ok binf, w'))
    /\ (forall i binf, binfs !! i = Some binf ->
          get_binf l (length (bin_functions b) + i) w' = (Ok binf, w'))
    /\ get_binf l (length (bin_functions b) + length binfs) w' = (Raise IndexError, w')
    /\ (forall l', l' <> l -> bins_heap w' !! l' = bins_heap w !! l')
    /\ model_heap w' = model_heap w.
Proof.
  intros Hb. rewrite (add_axes_run l binfs w b Hb). eexists. split; [reflexivity|].
  set (b' := mkBins (default_binf b) (bin_functions b ++ binfs)).
  assert (Hb' : bins_heap (with_bins l b' w) !! l = Some b')
    by (unfold with_bins; simpl; apply lookup_insert_eq).
  split.
  { unfold get_num_axes, bind, read_bins, ret. rewrite Hb'. subst b'. simpl.
    now rewrite length_app. }
  split.
  { intros i binf Hi. rewrite (get_binf_run l _ b' i Hb'). subst b'. simpl.
    now rewrite (lookup_app_l_Some _ _ _ _ Hi). }
  split.
  { intros i binf Hi. rewrite (get_binf_run l _ b' _ Hb'). subst b'. simpl.
    rewrite lookup_app_r by lia.
    replace (length (bin_functions b) + i - length (bin_functions b)) with i by lia.
    now rewrite Hi. }
  split.
  { rewrite (get_binf_run l _ b' _ Hb'). subst b'. simpl.
    rewrite (proj2 (lookup_ge_None _ _)); [reflexivity|].
    rewrite length_app. lia. }
  split; [|reflexivity].
  intros l' Hne. unfold with_bins. simpl. now apply lookup_insert_ne.
Qed.

(** X13.  [Bins()] is a new object with no axis; existing objects are untouched.
    [add_axis()] without a strategy then adds [ModuloBins(100, 0)], the
    defaults of the default class; for a default class whose constructor
    needs arguments it raises [TypeError] and adds nothing. *)
Theorem Bins_default_axis (cls : BinfClass) (w w1 : World M) (l : loc) :
  Bins_init cls w = (Ok l, w1) ->
  bins_heap w !! l = None
  /\ get_num_axes l w1 = (Ok 0, w1)
  /\ (forall l', l' <> l -> bins_heap w1 !! l' = bins_heap w !! l')
  /\ (cls = ModuloBinsClass ->
      exists w2, add_axis l None w1 = (Ok tt, w2)
        /\ get_num_axes l w2 = (Ok 1, w2)
        /\ get_binf l 0 w2 = (Ok (BModulo (mkModuloBins 100 0)), w2))
  /\ (cls <> ModuloBinsClass -> add_axis l None w1 = (Raise TypeError, w1)).
Proof.
  unfold Bins_init, new_bins. intros [= <- <-].
  set (l := fresh (dom (bins_heap w))).
  split.
  { apply not_elem_of_dom. apply is_fresh. }
  split.
  { unfold get_num_axes, bind, read_bins, ret. simpl. now rewrite lookup_insert_eq. }
  split.
  { intros l' Hne. simpl. now apply lookup_insert_ne. }
  split.
  - intros ->. unfold add_axis, bind, read_bins, lift, write_bins, ret. simpl.
    rewrite lookup_insert_eq. simpl. eexists. split; [reflexivity|].
    unfold get_num_axes, get_binf, bind, read_bins, ret. simpl.
    rewrite lookup_insert_eq. simpl. split; reflexivity.
  - intros Hne. unfold add_axis, bind, read_bins, lift. simpl.
    rewrite lookup_insert_eq. simpl. now destruct cls.
Qed.

End BinsMore.

Lemma add_axes_in_order_witness :
  bins_heap world_one_axis !! 1%positive
    = Some (mkBins ModuloBinsClass [BModulo (mkModuloBins 25 0)])
  /\ exists w',
    add_axes 1%positive [BModulo (mkModuloBins 100 0); BModulo (mkModuloBins 50 5)]
      world_one_axis = (Ok tt, w')
    /\ get_num_axes 1%positive w' = (Ok (1 + 2), w')
    /\ (forall i binf, [BModulo (mkModuloBins 25 0)] !! i = Some binf ->
          get_binf 1%positive i w' = (Ok binf, w'))
    /\ (forall i binf,
          [BModulo (mkModuloBins 100 0); BModulo (mkModuloBins 50 5)] !! i = Some binf ->
          get_binf 1%positive (1 + i) w' = (Ok binf, w'))
    /\ get_binf 1%positive (1 + 2) w' = (Raise IndexError, w')
    /\ (forall l', l' <> 1%positive ->
          bins_heap w' !! l' = bins_heap world_one_axis !! l')
    /\ model_heap w' = model_heap world_one_axis.
Proof.
  split; [reflexivity|].
  apply (add_axes_in_order 1%positive
           [BModulo (mkModuloBins 100 0); BModulo (mkModuloBins 50 5)]
           world_one_axis (mkBins ModuloBinsClass [BModulo (mkModuloBins 25 0)])).
  reflexivity.
Defined.

Lemma Bins_default_axis_witness :
  exists l w1,
    Bins_init ModuloBinsClass (empty_world (M := Recorder)) = (Ok l, w1)
    /\ bins_heap (empty_world (M := Recorder)) !! l = None
    /\ get_num_axes l w1 = (Ok 0, w1)
    /\ (forall l', l' <> l ->
          bins_heap w1 !! l' = bins_heap (empty_world (M := Recorder)) !! l')
    /\ (ModuloBinsClass = ModuloBinsClass ->
        exists w2, add_axis l None w1 = (Ok tt, w2)
          /\ get_num_axes l w2 = (Ok 1, w2)
          /\ get_binf l 0 w2 = (Ok (BModulo (mkModuloBins 100 0)), w2))
    /\ (ModuloBinsClass <> ModuloBinsClass -> add_axis l None w1 = (Raise TypeError, w1)).
Proof.
  eexists _, _. split; [reflexivity|].
  apply (Bins_default_axis ModuloBinsClass). reflexivity.
Defined.

Section BinsArrays.

Context {M : Type} `{ClusterModel M}.

(** The three array methods of [Bins] raise [AssertionError], and change
    nothing, when the array does not have one column per axis. *)
Lemma Bins_arrays_check_columns (l : loc) (X : ndarray Q) (ids : ndarray Z)
    (w : World M) b :
  bins_heap w !! l = Some b ->
  n_features X <> length (bin_functions b) ->
  n_features ids <> length (bin_functions b) ->
  Bins_value_to_id l X w = (Raise AssertionError, w)
  /\ Bins_id_to_bin_start l ids w = (Raise AssertionError, w)
  /\ Bins_id_to_bin_center l ids w = (Raise AssertionError, w).
Proof.
  intros Hb HX Hids.
  rewrite (Bins_value_to_id_run l X w b Hb), (Bins_id_to_bin_start_run l ids w b Hb),
    (Bins_id_to_bin_center_run l ids w b Hb).
  now rewrite !per_axis_assertion.
Qed.

(** X14.  When [value_to_id] returns, the array of ids has the shape of the
    input, every row has one id per axis, and the world is as before. *)
Theorem Bins_value_to_id_shape (l : loc) (X : ndarray Q) (w w' : World M) ids :
  Bins_value_to_id l X w = (Ok ids, w') ->
  w' = w
  /\ n_features ids = n_features X
  /\ n_samples ids = n_samples X
  /\ well_shaped ids
  /\ get_num_axes l w = (Ok (n_features X), w).
Proof.
  unfold Bins_value_to_id, get_num_axes, bind, read_bins, lift, ret.
  destruct (bins_heap w !! l) as [b|]; [|discriminate].
  intros [= Hrun <-]. split; [reflexivity|].
  destruct (per_axis_filled _ _ _ _ _ _ Hrun) as (Hn & HnY & _).
  split; [assumption|].
  split; [eapply per_axis_n_samples; eauto|].
  split; [eapply per_axis_well_shaped; eauto|].
  now rewrite Hn.
Qed.


(** X16.  Column [j] of the ids depends only on column [j] of the values and on
    the strategy of axis [j]: other columns and other axes do not matter. *)
Theorem Bins_value_to_id_column_independent (l l' : loc) (X X' : ndarray Q)
    (w w' : World M) b b' ids ids' (j : nat) :
  well_shaped X -> well_shaped X' ->
  bins_heap w !! l = Some b -> bins_heap w' !! l' = Some b' ->
  bin_functions b !! j = bin_functions b' !! j ->
  column 0%Q j X = column 0%Q j X' ->
  Bins_value_to_id l X w = (Ok ids, w) ->
  Bins_value_to_id l' X' w' = (Ok ids', w') ->
  column 0%Z j ids = column 0%Z j ids'.
Proof.
  intros Hws Hws' Hb Hb' Hbf Hcol Hrun Hrun'.
  rewrite (Bins_value_to_id_run l X w b Hb) in Hrun.
  rewrite (Bins_value_to_id_run l' X' w' b' Hb') in Hrun'.
  injection Hrun as Hrun. injection Hrun' as Hrun'.
  exact (per_axis_column 0%Q _value_to_id 0%Z 0%Z (bin_functions b) (bin_functions b')
           X X' ids ids' j Hws Hws' Hrun Hrun' Hbf Hcol).
Qed.

End BinsArrays.

(** * Further properties of coarse_grain *)

Lemma row_leb_total (r1 r2 : list Z) : row_leb r1 r2 = true \/ row_leb r2 r1 = true.
Proof.
  revert r2. induction r1 as [|x r1 IH]; intros [|y r2]; simpl; auto.
  destruct (Z.ltb_spec x y), (Z.ltb_spec y x); auto; try lia.
  assert (x = y) by lia. subst y. rewrite Z.eqb_refl. apply IH.
Qed.

Lemma row_leb_trans (r1 r2 r3 : list Z) :
  row_leb r1 r2 = true -> row_leb r2 r3 = true -> row_leb r1 r3 = true.
Proof.
  revert r2 r3. induction r1 as [|x r1 IH]; intros [|y r2] [|z r3]; simpl; auto;
    try discriminate.
  destruct (Z.ltb_spec x y), (Z.ltb_spec y z), (Z.ltb_spec x z); auto; try lia;
    destruct (Z.eqb_spec x y), (Z.eqb_spec y z), (Z.eqb_spec x z);
    try discriminate; try lia; eauto.
Qed.

Lemma row_leb_antisym (r1 r2 : list Z) :
  row_leb r1 r2 = true -> row_leb r2 r1 = true -> r1 = r2.
Proof.
  revert r2. induction r1 as [|x r1 IH]; intros [|y r2]; simpl; auto;
    try discriminate.
  intros H1 H2.
  destruct (Z.ltb_spec x y), (Z.ltb_spec y x); try lia.
  - destruct (Z.eqb_spec y x); [lia|discriminate].
  - destruct (Z.eqb_spec x y); [lia|discriminate].
  - assert (x = y) by lia. subst y. rewrite Z.eqb_refl in H1, H2.
    f_equal. now apply IH.
Qed.

#[global] Instance row_le_total : Total row_le.
Proof. intros r1 r2. apply row_leb_total. Qed.

#[global] Instance row_le_trans : Transitive row_le.
Proof. intros r1 r2 r3. apply row_leb_trans. Qed.

#[global] Instance row_le_antisym : AntiSymm (=) row_le.
Proof. intros r1 r2. apply row_leb_antisym. Qed.


Lemma elem_of_unique (ids : ndarray Z) (r : list Z) :
  r ∈ rows (unique ids) <-> r ∈ rows ids.
Proof.
  unfold unique. simpl. rewrite merge_sort_Permutation.
  apply elem_of_remove_dups.
Qed.

Lemma unique_well_shaped (ids : ndarray Z) : well_shaped ids -> well_shaped (unique ids).
Proof.
  unfold well_shaped. rewrite !Forall_forall. intros Hws r Hr.
  apply (proj1 (elem_of_unique ids r)) in Hr. exact (Hws r Hr).
Qed.

Lemma Forall2_elem_of_l {A B} (R : A -> B -> Prop) (xs : list A) (ys : list B) y :
  Forall2 R xs ys -> y ∈ ys -> exists x, x ∈ xs /\ R x y.
Proof.
  intros HF Hy. apply list_elem_of_lookup in Hy as [i Hi].
  destruct (Forall2_lookup_r _ _ _ _ _ HF Hi) as (x & Hx & HR).
  exists x. split; [|assumption]. apply list_elem_of_lookup. eauto.
Qed.

Lemma Forall2_elem_of_r {A B} (R : A -> B -> Prop) (xs : list A) (ys : list B) x :
  Forall2 R xs ys -> x ∈ xs -> exists y, y ∈ ys /\ R x y.
Proof.
  intros HF Hx. apply list_elem_of_lookup in Hx as [i Hi].
  destruct (Forall2_lookup_l _ _ _ _ _ HF Hi) as (y & Hy & HR).
  exists y. split; [|assumption]. apply list_elem_of_lookup. eauto.
Qed.


Section CoarseGrainMore.

Context {M : Type} `{ClusterModel M}.


(** X18.  With more strategies than features [coarse_grain] fails too, but with
    the [AssertionError] of [Bins.value_to_id]; nothing changes. *)
Theorem coarse_grain_too_many_axes (self : CGCluster) (X : ndarray Q) (w : World M) b :
  bins_heap w !! bins self = Some b ->
  n_features X < length (bin_functions b) ->
  coarse_grain self X w = (Raise AssertionError, w).
Proof.
  intros Hb Hlt.
  rewrite (coarse_grain_configured self X w b Hb) by lia.
  unfold grain. rewrite per_axis_assertion by lia. reflexivity.
Qed.

(** X19.  A matrix with features but no sample is refused with [ValueError]; when
    no strategy was configured, the auto-fill has been done all the same. *)
Theorem coarse_grain_no_sample (self : CGCluster) (X : ndarray Q) (w0 w1 : World M) b0 b1 :
  rows X = [] -> 0 < n_features X ->
  bins_heap w0 !! bins self = Some b0 -> bin_functions b0 = [] ->
  bins_heap w1 !! bins self = Some b1 -> length (bin_functions b1) = n_features X ->
  (exists w0', coarse_grain self X w0 = (Raise ValueError, w0')
     /\ get_num_axes (bins self) w0' = (Ok (n_features X), w0'))
  /\ coarse_grain self X w1 = (Raise ValueError, w1).
Proof.
  intros Hnil Hpos Hb0 Hfs0 Hb1 Hlen. split.
  - rewrite (coarse_grain_unconfigured self X w0 b0 Hb0 Hfs0).
    unfold grain. rewrite per_axis_no_sample; try assumption.
    + simpl. eexists. split; [reflexivity|].
      unfold get_num_axes, bind, read_bins, ret, with_bins. simpl.
      rewrite lookup_insert_eq. simpl. now rewrite length_replicate.
    + now rewrite length_replicate.
    + destruct (n_features X); [lia|discriminate].
  - rewrite (coarse_grain_configured self X w1 b1 Hb1) by lia.
    unfold grain. rewrite per_axis_no_sample; try (symmetry; assumption);
      try assumption; [reflexivity|].
    destruct (bin_functions b1); [simpl in Hlen; lia|discriminate].
Qed.

(** X20.  The rows that [coarse_grain] returns are exactly the rows of bin
    centres of the samples: each returned row is the centres of the ids of
    some sample, and the centres of the ids of each sample are returned.
    The matrix has the columns of [X]. *)
Theorem coarse_grain_rows_are_centers (self : CGCluster) (X : ndarray Q)
    (w w' : World M) out :
  well_shaped X ->
  coarse_grain self X w = (Ok out, w') ->
  exists b, bins_heap w' !! bins self = Some b
    /\ n_features out = n_features X
    /\ well_shaped out
    /\ forall c, c ∈ rows out <->
         exists r ids, r ∈ rows X
           /\ row_apply _value_to_id (bin_functions b) r = Ok ids
           /\ row_apply _id_to_bin_center (bin_functions b) ids = Ok c.
Proof.
  intros Hws Hrun.
  destruct (coarse_grain_returns self X w w' out Hrun) as (b & Hb & Hg & _).
  exists b. split; [assumption|].
  unfold grain in Hg.
  destruct (per_axis 0%Q 0%Z _value_to_id (bin_functions b) X) as [ids|e] eqn:Hids;
    simpl in Hg; [|discriminate].
  destruct (per_axis_rows _ _ _ _ _ _ Hws Hids) as (Hnb & Hni & Hrows).
  pose proof (per_axis_well_shaped _ _ _ _ _ _ Hids) as Hwsi.
  pose proof (unique_well_shaped ids Hwsi) as Hwsu.
  destruct (per_axis_rows _ _ _ _ _ _ Hwsu Hg) as (_ & Hno & Hrows2).
  split; [simpl in Hno; lia|].
  split; [eapply per_axis_well_shaped; eauto|].
  intros c. split.
  - intros Hc.
    destruct (Forall2_elem_of_l
                (fun y c => row_apply _id_to_bin_center (bin_functions b) y = Ok c)
                _ _ c Hrows2 Hc) as (y & Hy & HRy).
    apply (proj1 (elem_of_unique ids y)) in Hy.
    destruct (Forall2_elem_of_l
                (fun r y => row_apply _value_to_id (bin_functions b) r = Ok y)
                _ _ y Hrows Hy) as (r & Hr & HRr).
    eauto.
  - intros (r & y & Hr & HRr & HRy).
    destruct (Forall2_elem_of_r
                (fun r y => row_apply _value_to_id (bin_functions b) r = Ok y)
                _ _ r Hrows Hr) as (y' & Hy' & HRr').
    assert (y' = y) by congruence. subst y'.
    apply (proj2 (elem_of_unique ids y)) in Hy'.
    destruct (Forall2_elem_of_r
                (fun y c => row_apply _id_to_bin_center (bin_functions b) y = Ok c)
                _ _ y Hrows2 Hy') as (c' & Hc' & HRy').
    assert (c' = c) by congruence. now subst c'.
Qed.

(** X21.  The auto-fill settles the number of axes: once [coarse_grain] has run
    with no strategy configured on data with [n > 0] features, a later call
    on data with [n] features adds nothing and prints nothing, data with
    more features is refused as ambiguous, and data with fewer features
    fails the assertion of [Bins.value_to_id]. *)
Theorem coarse_grain_after_auto_fill (self : CGCluster) (X X2 : ndarray Q)
    (w : World M) b :
  bins_heap w !! bins self = Some b -> bin_functions b = [] ->
  0 < n_features X ->
  let w1 := snd (coarse_grain self X w) in
  (n_features X2 = n_features X ->
     coarse_grain self X2 w1
     = (grain (replicate (n_features X) fit_uniform_default_binf) X2, w1))
  /\ (n_features X < n_features X2 ->
     coarse_grain self X2 w1
     = (Raise (AmbiguousCGFunction (n_features X) (n_features X2)), w1))
  /\ (n_features X2 < n_features X ->
     coarse_grain self X2 w1 = (Raise AssertionError, w1)).
Proof.
  intros Hb Hfs Hpos. rewrite (coarse_grain_unconfigured self X w b Hb Hfs). simpl.
  set (b1 := mkBins (default_binf b) (replicate (n_features X) fit_uniform_default_binf)).
  set (w1 := with_bins (bins self) b1 _).
  assert (Hb1 : bins_heap w1 !! bins self = Some b1)
    by (unfold w1, with_bins; simpl; apply lookup_insert_eq).
  assert (Hlen : length (bin_functions b1) = n_features X)
    by (unfold b1; simpl; apply length_replicate).
  split; [|split].
  - intros Hn. rewrite (coarse_grain_configured self X2 w1 b1 Hb1) by lia.
    reflexivity.
  - intros Hn. rewrite (coarse_grain_ambiguous self X2 w1 b1 Hb1) by lia.
    now rewrite Hlen.
  - intros Hn. rewrite (coarse_grain_configured self X2 w1 b1 Hb1) by lia.
    unfold grain. rewrite per_axis_assertion by lia. reflexivity.
Qed.

End CoarseGrainMore.

(** * Further properties of the wrappers *)

Section WrappersMore.

Context {M : Type} `{ClusterModel M}.

(** X22.  [CGCluster.fit(X)] fits [coarse_model] on the matrix that
    [coarse_grain(X)] returns and touches nothing else. *)
Theorem CGCluster_fit_stages (self : CGCluster) (X : ndarray Q) (w w1 : World M)
    centers mc mc' :
  coarse_grain self X w = (Ok centers, w1) ->
  model_heap w !! coarse_model self = Some mc ->
  model_fit mc centers = Ok mc' ->
  CGCluster_fit self X w = (Ok tt, with_model (coarse_model self) mc' w1).
Proof.
  intros Hcg Hmc Hfit.
  pose proof (coarse_grain_model_heap self X w) as Hmh.
  rewrite Hcg in Hmh. simpl in Hmh.
  unfold CGCluster_fit, bind. rewrite Hcg.
  apply (call_fit_run _ centers w1 mc mc'); [now rewrite Hmh | assumption].
Qed.

(** X23.  When [coarse_grain] raises, [fit] of either class raises the same
    exception and no model object has been touched. *)
Theorem fit_raises_what_coarse_grain_raises (km : KMCalico) (X : ndarray Q)
    (w w1 : World M) e :
  coarse_grain (as_CGCluster km) X w = (Raise e, w1) ->
  CGCluster_fit (as_CGCluster km) X w = (Raise e, w1)
  /\ KMCalico_fit km X w = (Raise e, w1)
  /\ model_heap w1 = model_heap w.
Proof.
  intros Hcg.
  pose proof (coarse_grain_model_heap (as_CGCluster km) X w) as Hmh.
  rewrite Hcg in Hmh. simpl in Hmh.
  unfold CGCluster_fit, KMCalico_fit, bind. rewrite Hcg. auto.
Qed.


(** X25.  A mode outside the documented ones is refused with [ModelValueError]
    before any model is called; ["fine"] is a mode of [KMCalico] only. *)
Theorem predict_refuses_unknown_mode (self : CGCluster) (km : KMCalico)
    (X : ndarray Q) (mode : string) (rc : bool) (w : World M) :
  mode <> "coarse"%string -> mode <> "default"%string ->
  CGCluster_predict self X mode w
  = (Raise (ModelValueError "model must be coarse or default"), w)
  /\ (mode <> "fine"%string ->
      KMCalico_predict km X mode rc w
      = (Raise (ModelValueError "model must be fine, coarse, or default"), w)).
Proof.
  intros Hc Hd. unfold CGCluster_predict, KMCalico_predict.
  apply String.eqb_neq in Hc, Hd. rewrite Hc, Hd. split; [reflexivity|].
  intros Hf. apply String.eqb_neq in Hf. rewrite Hf. reflexivity.
Qed.

Lemma KMCalico_predict_run (self : KMCalico) (X : ndarray Q)
    (mode : string) (w : World M) :
  mode = "fine"%string \/ mode = "coarse"%string ->
  let l := if String.eqb mode "fine" then fine_model self
           else coarse_model (as_CGCluster self) in
  forall rc,
    KMCalico_predict self X mode rc w
    = (match fst (call_predict l X w), fst (get_cluster_centers_ l w) with
       | Ok y_pred, Ok centers =>
           Ok (y_pred, if rc then Some centers else None)
       | Ok _, Raise e => Raise e
       | Raise e, _ => Raise e
       end, w).
Proof.
  intros Hmode l rc. unfold KMCalico_predict.
  assert (Hsel :
    (if String.eqb mode "fine" then
       let! y_pred := call_predict (fine_model self) X in
       let! centers := get_cluster_centers_ (fine_model self) in
       ret (y_pred, centers)
     else if String.eqb mode "coarse" then
       let! y_pred := call_predict (coarse_model (as_CGCluster self)) X in
       let! centers := get_cluster_centers_ (coarse_model (as_CGCluster self)) in
       ret (y_pred, centers)
     else if String.eqb mode "default" then
       let! y_pred := call_fit_predict (model (as_CGCluster self)) X in
       let! centers := get_cluster_centers_ (model (as_CGCluster self)) in
       ret (y_pred, centers)
     else raise (ModelValueError "model must be fine, coarse, or default"))
    = (let! y_pred := call_predict l X in
       let! centers := get_cluster_centers_ l in
       ret (M := M) (y_pred, centers))).
  { subst l. destruct Hmode as [-> | ->]; reflexivity. }
  rewrite Hsel. clear Hsel.
  unfold bind, ret.
  pose proof (call_predict_frame l X w) as Hp.
  destruct (call_predict l X w) as [[y|e] wp]; simpl in *; subst wp; [|reflexivity].
  pose proof (get_cluster_centers_frame l w) as Hc.
  destruct (get_cluster_centers_ l w) as [[c|e] wc]; simpl in *; subst wc;
    [|reflexivity].
  now destruct rc.
Qed.

(** X26.  [KMCalico.predict] with mode ["fine"] or ["coarse"] changes nothing,
    and asking for the centres does not change the labels.  The centres
    are read even when they are not asked for: a model without
    [cluster_centers_] makes the call fail either way. *)
Theorem KMCalico_predict_read_only (self : KMCalico) (X : ndarray Q)
    (mode : string) (rc : bool) (w : World M) :
  mode = "fine"%string \/ mode = "coarse"%string ->
  let l := if String.eqb mode "fine" then fine_model self
           else coarse_model (as_CGCluster self) in
  snd (KMCalico_predict self X mode rc w) = w
  /\ (forall y c,
        KMCalico_predict self X mode true w = (Ok (y, Some c), w) <->
        KMCalico_predict self X mode false w = (Ok (y, None), w)
        /\ fst (get_cluster_centers_ l w) = Ok c)
  /\ (forall y e,
        fst (call_predict l X w) = Ok y ->
        fst (get_cluster_centers_ l w) = Raise e ->
        KMCalico_predict self X mode rc w = (Raise e, w)).
Proof.
  intros Hmode l.
  pose proof (KMCalico_predict_run self X mode w Hmode) as Hrun.
  fold l in Hrun. simpl in Hrun.
  split; [now rewrite Hrun|].
  split.
  - intros y c. rewrite !Hrun.
    destruct (fst (call_predict l X w)) as [y'|e].
    + destruct (fst (get_cluster_centers_ l w)) as [c'|e'].
      * split.
        -- intros E. injection E as -> ->. auto.
        -- intros [E1 E2]. injection E1 as ->. injection E2 as ->. reflexivity.
      * split; [discriminate | intros [E _]; discriminate].
    + split; [discriminate | intros [E _]; discriminate].
  - intros y e Hy Hc. rewrite Hrun, Hy, Hc. reflexivity.
Qed.

(** X27.  [KMCalico(bins, model)] makes two new model objects from the state of
    the template: [coarse_model] with [n_init='auto'] and [fine_model] with
    [n_init=1].  Every object that existed before, the template among
    them, is left as it was. *)
Theorem KMCalico_init_copies (g : Globals) bo mo (w : World M) m :
  model_heap w !! default (KMCalico_default_model g) mo = Some m ->
  exists self w',
    KMCalico_init g bo mo w = (Ok self, w')
    /\ model_heap w !! coarse_model (as_CGCluster self) = None
    /\ model_heap w !! fine_model self = None
    /\ model_heap w' !! coarse_model (as_CGCluster self)
       = Some (set_params_n_init n_init_auto m)
    /\ model_heap w' !! fine_model self
       = Some (set_params_n_init (n_init_int 1) m)
    /\ (forall l, is_Some (model_heap w !! l) ->
          model_heap w' !! l = model_heap w !! l)
    /\ bins_heap w' = bins_heap w.
Proof.
  intros Hm.
  unfold KMCalico_init, deepcopy, call_set_params, bind, read_model, new_model,
    write_model, ret.
  rewrite Hm. simpl. rewrite lookup_insert_eq. simpl.
  set (k := default (KMCalico_default_model g) mo) in *.
  set (c := fresh (dom (model_heap w))).
  assert (Hkc : k <> c) by (apply fresh_not_in_heap; eauto).
  rewrite !lookup_insert_ne by (intros E; apply Hkc; now rewrite E).
  rewrite Hm. simpl. rewrite lookup_insert_eq. simpl.
  rewrite !insert_insert_eq.
  set (h1 := <[c := set_params_n_init n_init_auto m]> (model_heap w)).
  set (fl := fresh (dom h1)).
  assert (Hcf : c <> fl).
  { apply fresh_not_in_heap. unfold h1. rewrite lookup_insert_eq. eauto. }
  eexists _, _. split; [reflexivity|]. simpl.
  split.
  { apply not_elem_of_dom. apply is_fresh. }
  split.
  { destruct (model_heap w !! fl) as [x|] eqn:E; [|reflexivity].
    exfalso. assert (Hin : is_Some (h1 !! fl)).
    { unfold h1. rewrite lookup_insert_ne by assumption. eauto. }
    apply (fresh_not_in_heap h1 fl Hin). reflexivity. }
  split.
  { rewrite lookup_insert_ne by (intros E; apply Hcf; now rewrite E).
    unfold h1. apply lookup_insert_eq. }
  split; [apply lookup_insert_eq|].
  split; [|reflexivity].
  intros l Hl.
  assert (Hlc : l <> c) by (apply fresh_not_in_heap; assumption).
  assert (Hlf : l <> fl).
  { apply fresh_not_in_heap. unfold h1. now rewrite lookup_insert_ne by congruence. }
  rewrite lookup_insert_ne by congruence. unfold h1.
  now rewrite lookup_insert_ne by congruence.
Qed.

(** X28.  Two [CGCluster()] built one after the other without a [model] argument
    hold the same template object, the default made when the module was
    loaded, and each its own copy as [coarse_model]. *)
Theorem CGCluster_default_model_shared (g : Globals) bo1 bo2
    (w w1 w2 : World M) a b :
  CGCluster_init g bo1 None w = (Ok a, w1) ->
  CGCluster_init g bo2 None w1 = (Ok b, w2) ->
  model a = model b
  /\ model a = CGCluster_default_model g
  /\ coarse_model a <> coarse_model b
  /\ coarse_model a <> model a /\ coarse_model b <> model b
  /\ model_heap w1 !! coarse_model a = model_heap w !! model a
  /\ model_heap w2 !! coarse_model b = model_heap w1 !! model b.
Proof.
  unfold CGCluster_init, deepcopy, bind, read_model, new_model, ret. simpl.
  destruct (model_heap w !! CGCluster_default_model g) as [m|] eqn:Hm;
    [|discriminate].
  intros [= <- <-]. simpl.
  set (c := fresh (dom (model_heap w))) in *.
  assert (Hkc : CGCluster_default_model g <> c) by (apply fresh_not_in_heap; eauto).
  rewrite lookup_insert_ne by congruence. rewrite Hm.
  intros [= <- <-]. simpl.
  set (h1 := <[c := m]> (model_heap w)).
  split; [reflexivity|]. split; [reflexivity|].
  split.
  { apply fresh_not_in_heap. unfold h1. rewrite lookup_insert_eq. eauto. }
  split; [congruence|].
  split.
  { intros E. symmetry in E. revert E. apply fresh_not_in_heap.
    unfold h1. rewrite lookup_insert_ne by congruence. eauto. }
  split; [apply lookup_insert_eq|].
  rewrite lookup_insert_eq. unfold h1.
  rewrite lookup_insert_ne by congruence. congruence.
Qed.

End WrappersMore.

(** * scores *)

Section Scores.

Context {M : Type} `{ClusterModel M} `{Metrics}.

(** X29.  When [scores] returns, the dictionary has the four documented keys and
    no other, holding the three scores of the labels that [predict]
    returned and, as ["n_misclassified"], [len(y_true) * (1 - rand_score)],
    which lies between [0] and [len(y_true)] when the rand score lies
    between [0] and [1].  The world is the one [predict] leaves. *)
Theorem CGCluster_scores_summary (self : CGCluster) (X : ndarray Q)
    (y_true : list Z) (mode : string) (w w' : World M) (s : gmap string Q) :
  CGCluster_scores self X y_true mode w = (Ok s, w') ->
  exists y_pred r h c,
    CGCluster_predict self X mode w = (Ok y_pred, w')
    /\ rand_score y_true y_pred = Ok r
    /\ homogeneity_score y_true y_pred = Ok h
    /\ completeness_score y_true y_pred = Ok c
    /\ s !! "rand_score"%string = Some r
    /\ s !! "homogeneity_score"%string = Some h
    /\ s !! "completeness_score"%string = Some c
    /\ s !! "n_misclassified"%string
       = Some (inject_Z (Z.of_nat (length y_true)) * (1 - r))%Q
    /\ dom s = ({["rand_score"%string; "homogeneity_score"%string;
                  "completeness_score"%string; "n_misclassified"%string]}
                : gset string)
    /\ ((0 <= r)%Q -> (r <= 1)%Q ->
        (0 <= inject_Z (Z.of_nat (length y_true)) * (1 - r))%Q
        /\ (inject_Z (Z.of_nat (length y_true)) * (1 - r)
            <= inject_Z (Z.of_nat (length y_true)))%Q).
Proof.
  unfold CGCluster_scores, bind, lift.
  destruct (CGCluster_predict self X mode w) as [[y_pred|e] w1]; [|discriminate].
  unfold score_summary.
  destruct (rand_score y_true y_pred) as [r|e] eqn:Er; simpl; [|discriminate].
  destruct (homogeneity_score y_true y_pred) as [h|e] eqn:Eh; simpl; [|discriminate].
  destruct (completeness_score y_true y_pred) as [c|e] eqn:Ec; simpl; [|discriminate].
  intros [= <- <-]. exists y_pred, r, h, c.
  split; [reflexivity|]. split; [assumption|]. split; [assumption|].
  split; [assumption|].
  split; [now rewrite !lookup_insert_ne, lookup_insert_eq by done|].
  split; [now rewrite !lookup_insert_ne, lookup_insert_eq by done|].
  split; [now rewrite !lookup_insert_ne, lookup_insert_eq by done|].
  split; [now rewrite lookup_insert_eq|].
  split.
  { rewrite !dom_insert_L, dom_empty_L. set_solver. }
  intros Hr0 Hr1.
  assert (Hlen : (0 <= inject_Z (Z.of_nat (length y_true)))%Q).
  { change 0%Q with (inject_Z 0). rewrite <- Zle_Qle. lia. }
  set (n := inject_Z (Z.of_nat (length y_true))) in *.
  assert (Hp1 : (0 <= n * (1 - r))%Q) by (apply Qmult_le_0_compat; lra).
  assert (Hp2 : (0 <= n * r)%Q) by (apply Qmult_le_0_compat; lra).
  split; lra.
Qed.

(** X30.  [scores] goes through the [predict] of the object's own class: mode
    ["fine"] is refused for a [CGCluster], before any score is computed,
    and accepted for a [KMCalico], where the scores are those of the fine
    model's labels. *)
Theorem scores_mode_fine (km : KMCalico) (X : ndarray Q) (y_true : list Z)
    (w : World M) m y_pred c :
  model_heap w !! fine_model km = Some m ->
  model_predict m X = Ok y_pred ->
  cluster_centers_ m = Ok c ->
  CGCluster_scores (as_CGCluster km) X y_true "fine" w
  = (Raise (ModelValueError "model must be coarse or default"), w)
  /\ KMCalico_scores km X y_true "fine" w = (score_summary y_true y_pred, w).
Proof.
  intros Hm Hp Hc. split; [reflexivity|].
  unfold KMCalico_scores, KMCalico_predict. simpl.
  unfold call_predict, get_cluster_centers_, bind, read_model, lift, ret.
  rewrite Hm, Hp. simpl. rewrite Hm, Hc. reflexivity.
Qed.

End Scores.

(** * The further properties on the sample data *)

Lemma sample_X_other_well_shaped : well_shaped sample_X_other.
Proof. unfold well_shaped, sample_X_other. simpl. repeat constructor. Qed.

Lemma Bins_value_to_id_shape_witness :
  exists ids w',
    Bins_value_to_id 1%positive sample_X world_two_axes = (Ok ids, w')
    /\ w' = world_two_axes
    /\ n_features ids = n_features sample_X
    /\ n_samples ids = n_samples sample_X
    /\ well_shaped ids
    /\ get_num_axes 1%positive world_two_axes = (Ok (n_features sample_X), world_two_axes).
Proof.
  eexists _, _. split; [vm_compute; reflexivity|].
  apply (Bins_value_to_id_shape 1%positive sample_X world_two_axes).
  vm_compute. reflexivity.
Defined.


Lemma Bins_value_to_id_column_independent_witness :
  exists b b' ids ids',
    well_shaped sample_X /\ well_shaped sample_X_other
    /\ bins_heap world_two_axes !! 1%positive = Some b
    /\ bins_heap world_two_other_axes !! 1%positive = Some b'
    /\ bin_functions b !! 0 = bin_functions b' !! 0
    /\ column 0%Q 0 sample_X = column 0%Q 0 sample_X_other
    /\ Bins_value_to_id 1%positive sample_X world_two_axes = (Ok ids, world_two_axes)
    /\ Bins_value_to_id 1%positive sample_X_other world_two_other_axes
       = (Ok ids', world_two_other_axes)
    /\ column 0%Z 0 ids = column 0%Z 0 ids'.
Proof.
  eexists _, _, _, _.
  split; [apply sample_X_well_shaped|]. split; [apply sample_X_other_well_shaped|].
  split; [reflexivity|]. split; [reflexivity|]. split; [reflexivity|].
  split; [reflexivity|].
  split; [vm_compute; reflexivity|]. split; [vm_compute; reflexivity|].
  eapply (Bins_value_to_id_column_independent 1%positive 1%positive
            sample_X sample_X_other world_two_axes world_two_other_axes).
  - apply sample_X_well_shaped.
  - apply sample_X_other_well_shaped.
  - reflexivity.
  - reflexivity.
  - reflexivity.
  - reflexivity.
  - vm_compute. reflexivity.
  - vm_compute. reflexivity.
Defined.


Lemma coarse_grain_too_many_axes_witness :
  exists b,
    bins_heap world_three_axes !! bins sample_cg = Some b
    /\ n_features sample_X < length (bin_functions b)
    /\ coarse_grain sample_cg sample_X world_three_axes
       = (Raise AssertionError, world_three_axes).
Proof.
  eexists. split; [reflexivity|]. split; [simpl; lia|].
  eapply (coarse_grain_too_many_axes sample_cg sample_X world_three_axes);
    [reflexivity | simpl; lia].
Defined.

Lemma coarse_grain_no_sample_witness :
  exists b0 b1,
    rows sample_X_empty = [] /\ 0 < n_features sample_X_empty
    /\ bins_heap world_no_axes !! bins sample_cg = Some b0 /\ bin_functions b0 = []
    /\ bins_heap world_two_axes !! bins sample_cg = Some b1
    /\ length (bin_functions b1) = n_features sample_X_empty
    /\ (exists w0', coarse_grain sample_cg sample_X_empty world_no_axes
                    = (Raise ValueError, w0')
          /\ get_num_axes (bins sample_cg) w0' = (Ok (n_features sample_X_empty), w0'))
    /\ coarse_grain sample_cg sample_X_empty world_two_axes
       = (Raise ValueError, world_two_axes).
Proof.
  eexists _, _. split; [reflexivity|]. split; [simpl; lia|].
  split; [reflexivity|]. split; [reflexivity|]. split; [reflexivity|].
  split; [reflexivity|].
  eapply (coarse_grain_no_sample sample_cg sample_X_empty world_no_axes world_two_axes);
    [reflexivity | simpl; lia | reflexivity | reflexivity | reflexivity | reflexivity].
Defined.

Lemma coarse_grain_rows_are_centers_witness :
  exists out w',
    well_shaped sample_X
    /\ coarse_grain sample_cg sample_X world_two_axes = (Ok out, w')
    /\ exists b, bins_heap w' !! bins sample_cg = Some b
      /\ n_features out = n_features sample_X
      /\ well_shaped out
      /\ forall c, c ∈ rows out <->
           exists r ids, r ∈ rows sample_X
             /\ row_apply _value_to_id (bin_functions b) r = Ok ids
             /\ row_apply _id_to_bin_center (bin_functions b) ids = Ok c.
Proof.
  eexists _, _. split; [apply sample_X_well_shaped|].
  split; [vm_compute; reflexivity|].
  apply (coarse_grain_rows_are_centers sample_cg sample_X world_two_axes);
    [apply sample_X_well_shaped | vm_compute; reflexivity].
Defined.

Lemma coarse_grain_after_auto_fill_witness :
  exists b,
    bins_heap world_no_axes !! bins sample_cg = Some b /\ bin_functions b = []
    /\ 0 < n_features sample_X
    /\ (n_features sample_X < n_features sample_X_wide ->
        coarse_grain sample_cg sample_X_wide
          (snd (coarse_grain sample_cg sample_X world_no_axes))
        = (Raise (AmbiguousCGFunction (n_features sample_X) (n_features sample_X_wide)),
           snd (coarse_grain sample_cg sample_X world_no_axes))).
Proof.
  eexists. split; [reflexivity|]. split; [reflexivity|]. split; [simpl; lia|].
  eapply (coarse_grain_after_auto_fill sample_cg sample_X sample_X_wide world_no_axes);
    [reflexivity | reflexivity | simpl; lia].
Defined.

Lemma CGCluster_fit_stages_witness :
  exists centers w1 mc mc',
    coarse_grain sample_cg sample_X world_no_axes = (Ok centers, w1)
    /\ model_heap world_no_axes !! coarse_model sample_cg = Some mc
    /\ model_fit mc centers = Ok mc'
    /\ CGCluster_fit sample_cg sample_X world_no_axes
       = (Ok tt, with_model (coarse_model sample_cg) mc' w1).
Proof.
  eexists _, _, _, _. split; [vm_compute; reflexivity|].
  split; [vm_compute; reflexivity|]. split; [vm_compute; reflexivity|].
  eapply (CGCluster_fit_stages sample_cg sample_X world_no_axes);
    vm_compute; reflexivity.
Defined.

Lemma fit_raises_what_coarse_grain_raises_witness :
  coarse_grain (as_CGCluster sample_km) sample_X world_one_axis
    = (Raise (AmbiguousCGFunction 1 2), world_one_axis)
  /\ CGCluster_fit (as_CGCluster sample_km) sample_X world_one_axis
     = (Raise (AmbiguousCGFunction 1 2), world_one_axis)
  /\ KMCalico_fit sample_km sample_X world_one_axis
     = (Raise (AmbiguousCGFunction 1 2), world_one_axis)
  /\ model_heap world_one_axis = model_heap world_one_axis.
Proof.
  split; [vm_compute; reflexivity|].
  apply (fit_raises_what_coarse_grain_raises sample_km sample_X world_one_axis).
  vm_compute. reflexivity.
Defined.


Lemma predict_refuses_unknown_mode_witness :
  "fast"%string <> "coarse"%string /\ "fast"%string <> "default"%string
  /\ CGCluster_predict sample_cg sample_X "fast" world_no_axes
     = (Raise (ModelValueError "model must be coarse or default"), world_no_axes)
  /\ ("fast"%string <> "fine"%string ->
      KMCalico_predict sample_km sample_X "fast" true world_no_axes
      = (Raise (ModelValueError "model must be fine, coarse, or default"), world_no_axes)).
Proof.
  split; [discriminate|]. split; [discriminate|].
  apply (predict_refuses_unknown_mode sample_cg sample_km sample_X "fast" true
           world_no_axes); discriminate.
Defined.

Lemma KMCalico_predict_read_only_witness :
  ("fine"%string = "fine"%string \/ "fine"%string = "coarse"%string)
  /\ snd (KMCalico_predict sample_km sample_X "fine" true world_km_fitted) = world_km_fitted
  /\ (forall y c,
        KMCalico_predict sample_km sample_X "fine" true world_km_fitted
          = (Ok (y, Some c), world_km_fitted) <->
        KMCalico_predict sample_km sample_X "fine" false world_km_fitted
          = (Ok (y, None), world_km_fitted)
        /\ fst (get_cluster_centers_ (fine_model sample_km) world_km_fitted) = Ok c)
  /\ (forall y e,
        fst (call_predict (fine_model sample_km) sample_X world_km_fitted) = Ok y ->
        fst (get_cluster_centers_ (fine_model sample_km) world_km_fitted) = Raise e ->
        KMCalico_predict sample_km sample_X "fine" true world_km_fitted
          = (Raise e, world_km_fitted)).
Proof.
  split; [left; reflexivity|].
  apply (KMCalico_predict_read_only sample_km sample_X "fine" true world_km_fitted).
  left. reflexivity.
Defined.

Lemma KMCalico_init_copies_witness :
  exists m,
    model_heap loaded_world !! default (KMCalico_default_model loaded_globals) None = Some m
    /\ exists self w',
      KMCalico_init loaded_globals None None loaded_world = (Ok self, w')
      /\ model_heap loaded_world !! coarse_model (as_CGCluster self) = None
      /\ model_heap loaded_world !! fine_model self = None
      /\ model_heap w' !! coarse_model (as_CGCluster self)
         = Some (set_params_n_init n_init_auto m)
      /\ model_heap w' !! fine_model self
         = Some (set_params_n_init (n_init_int 1) m)
      /\ (forall l, is_Some (model_heap loaded_world !! l) ->
            model_heap w' !! l = model_heap loaded_world !! l)
      /\ bins_heap w' = bins_heap loaded_world.
Proof.
  eexists. split; [vm_compute; reflexivity|].
  apply (KMCalico_init_copies loaded_globals None None loaded_world).
  vm_compute. reflexivity.
Defined.

Lemma CGCluster_default_model_shared_witness :
  exists a b,
    CGCluster_init loaded_globals None None loaded_world = (Ok a, world_a)
    /\ CGCluster_init loaded_globals None None world_a = (Ok b, world_b)
    /\ model a = model b
    /\ model a = CGCluster_default_model loaded_globals
    /\ coarse_model a <> coarse_model b
    /\ coarse_model a <> model a /\ coarse_model b <> model b
    /\ model_heap world_a !! coarse_model a = model_heap loaded_world !! model a
    /\ model_heap world_b !! coarse_model b = model_heap world_a !! model b.
Proof.
  eexists _, _. split; [vm_compute; reflexivity|]. split; [vm_compute; reflexivity|].
  apply (CGCluster_default_model_shared loaded_globals None None
           loaded_world world_a world_b);
    vm_compute; reflexivity.
Defined.

Lemma CGCluster_scores_summary_witness :
  exists s w',
    CGCluster_scores sample_cg sample_X [0; 0; 1]%Z "coarse" world_fitted = (Ok s, w')
    /\ exists y_pred r h c,
      CGCluster_predict sample_cg sample_X "coarse" world_fitted = (Ok y_pred, w')
      /\ rand_score [0; 0; 1]%Z y_pred = Ok r
      /\ homogeneity_score [0; 0; 1]%Z y_pred = Ok h
      /\ completeness_score [0; 0; 1]%Z y_pred = Ok c
      /\ s !! "rand_score"%string = Some r
      /\ s !! "homogeneity_score"%string = Some h
      /\ s !! "completeness_score"%string = Some c
      /\ s !! "n_misclassified"%string
         = Some (inject_Z (Z.of_nat (length [0; 0; 1]%Z)) * (1 - r))%Q
      /\ dom s = ({["rand_score"%string; "homogeneity_score"%string;
                    "completeness_score"%string; "n_misclassified"%string]}
                  : gset string)
      /\ ((0 <= r)%Q -> (r <= 1)%Q ->
          (0 <= inject_Z (Z.of_nat (length [0; 0; 1]%Z)) * (1 - r))%Q
          /\ (inject_Z (Z.of_nat (length [0; 0; 1]%Z)) * (1 - r)
              <= inject_Z (Z.of_nat (length [0; 0; 1]%Z)))%Q).
Proof.
  eexists _, _. split; [vm_compute; reflexivity|].
  apply (CGCluster_scores_summary sample_cg sample_X [0; 0; 1]%Z "coarse" world_fitted).
  vm_compute. reflexivity.
Defined.

Lemma scores_mode_fine_witness :
  exists m y_pred c,
    model_heap world_km_fitted !! fine_model sample_km = Some m
    /\ model_predict m sample_X = Ok y_pred
    /\ cluster_centers_ m = Ok c
    /\ CGCluster_scores (as_CGCluster sample_km) sample_X [0; 0; 1]%Z "fine" world_km_fitted
       = (Raise (ModelValueError "model must be coarse or default"), world_km_fitted)
    /\ KMCalico_scores sample_km sample_X [0; 0; 1]%Z "fine" world_km_fitted
       = (score_summary [0; 0; 1]%Z y_pred, world_km_fitted).
Proof.
  eexists _, _, _. split; [vm_compute; reflexivity|].
  split; [vm_compute; reflexivity|]. split; [vm_compute; reflexivity|].
  eapply (scores_mode_fine sample_km sample_X [0; 0; 1]%Z world_km_fitted);
    vm_compute; reflexivity.
Defined.
